(** * Agent commission analysis: the policy pipeline of [streamlit_app.py]

    A shallow embedding of the derivation logic of the dashboard script:
    the query of [load_data], the cleaning of the loaded frame, the three
    derived columns [CB_FRACTION],
    [MONTHS_PAID] and [STATUS], the sidebar date filter, the two segment
    frames, and the resampled time series of [render_all] and
    [render_segment].

    Conventions of the embedding.
    - A data frame is the list of its rows, in row order.
    - Money columns are exact rationals ([Q], compared with [==]); the
      arithmetic of the script ([abs], [/], [min], [1 - x], [12 * x],
      [round]) is carried out without rounding error.
    - A timestamp is the number of days since 1970-01-01: the query formats
      every date as 'YYYY-MM-DD', so each parsed timestamp is a midnight.
    - A Python exception is an explicit [Raise] result. *)

From Stdlib Require Import ZArith QArith Qround Qabs Qminmax List Bool String.
From Stdlib Require Import Morphisms Sorted Lia Lqa.
Import ListNotations.

Local Open Scope Z_scope.

(** ** The fragment of Python the script relies on *)

Module Py.

Inductive exn : Type :=
| TypeError
| ValueError
| ZeroDivisionError.

Inductive result (A : Type) : Type :=
| Ok (a : A)
| Raise (e : exn).

Arguments Ok {A} a.
Arguments Raise {A} e.

Definition bind {A B : Type} (m : result A) (k : A -> result B) : result B :=
  match m with
  | Ok a => k a
  | Raise e => Raise e
  end.

(** [for x in xs: f x], stopping at the first exception. *)
Fixpoint mapM {A B : Type} (f : A -> result B) (xs : list A) : result (list B) :=
  match xs with
  | [] => Ok []
  | x :: xs' =>
      bind (f x) (fun y => bind (mapM f xs') (fun ys => Ok (y :: ys)))
  end.

Definition Qltb (x y : Q) : bool :=
  match (x ?= y)%Q with Lt => true | _ => false end.

(** [a / b] on numbers: division by zero raises. *)
Definition truediv (a b : Q) : result Q :=
  if Qeq_bool b 0 then Raise ZeroDivisionError else Ok (a / b)%Q.

(** [min(a, b)]: the first argument unless the second is strictly smaller. *)
Definition min (a b : Q) : Q := if Qltb b a then b else a.

(** [max(a, b)] on dates: the first argument unless the second is
    strictly greater. *)
Definition max (a b : Z) : Z := if a <? b then b else a.

(** The built-in [round(x)] with one argument: the nearest integer, a tie
    going to the even neighbour. *)
Definition round (x : Q) : Z :=
  let f := Qfloor x in
  match (x - inject_Z f ?= 1 # 2)%Q with
  | Lt => f
  | Gt => f + 1
  | Eq => if Z.even f then f else f + 1
  end.

End Py.

Import Py.

Notation "x <- m ;; k" := (Py.bind m (fun x => k))
  (at level 61, m at next level, right associativity).

(** ** Rows of the frame *)

Inductive Status : Type :=
| Active
| Charged_Back.

Definition Status_eqb (a b : Status) : bool :=
  match a, b with
  | Active, Active | Charged_Back, Charged_Back => true
  | _, _ => false
  end.

(** A row of the frame returned by [load_data]: the date is still the text
    of the query's [TO_VARCHAR], or SQL NULL. *)
Module Raw.
Record row : Type := mk {
  POLICY_ID : Z;
  POLICY_NUMBER : string;
  FIRST_STATEMENT_DATE : option string;
  ADVANCE_AMOUNT : Q;
  CHARGEBACK_AMOUNT : Q
}.
End Raw.

(** A row after [pd.to_datetime] and [dropna]. *)
Record Summary : Type := mkSummary {
  POLICY_ID : Z;
  POLICY_NUMBER : string;
  FIRST_STATEMENT_DATE : Z;
  ADVANCE_AMOUNT : Q;
  CHARGEBACK_AMOUNT : Q
}.

(** A row once the three derived columns have been added. *)
Record Classified : Type := mkClassified {
  summary :> Summary;
  CB_FRACTION : Q;
  MONTHS_PAID : Z;
  STATUS : Status
}.

(** ** The query of [load_data] (lines 24-76)

    The two tables are lists of rows without NULLs; a GROUP BY lists its
    groups in the order in which their keys first occur. *)

Module Ledger.

(** A row of [raw.ams.agent_commission_paid], with the columns the query
    reads. *)
Record commission : Type := mk_commission {
  POLICY_ID : Z;
  STATEMENT_DATE : Z;
  PAID_OVERRIDE_AMOUNT : Q
}.

(** A row of [raw.ams.policies]. *)
Record policy : Type := mk_policy {
  ID : Z;
  POLICY_NUMBER : string
}.

(** [base]: [acp JOIN p ON acp.POLICY_ID = p.ID], as pairs of the
    commission row and [p.POLICY_NUMBER]. *)
Definition base (acp : list commission) (policies : list policy)
  : list (commission * string) :=
  flat_map (fun a =>
              map (fun p => (a, POLICY_NUMBER p))
                  (filter (fun p => POLICY_ID a =? ID p) policies))
           acp.

Definition key_eq_dec (k k' : Z * string) : {k = k'} + {k <> k'}.
Proof. decide equality; [apply string_dec | apply Z.eq_dec]. Defined.

Definition key_eqb (k k' : Z * string) : bool :=
  if key_eq_dec k k' then true else false.

Fixpoint minimum (x : Z) (xs : list Z) : Z :=
  match xs with
  | [] => x
  | y :: ys => Z.min x (minimum y ys)
  end.

(** [first_statement]: [MIN(STATEMENT_DATE) ... GROUP BY POLICY_ID,
    POLICY_NUMBER], rows [(POLICY_ID, POLICY_NUMBER, FIRST_STATEMENT_DATE)]. *)
Definition first_statement (b : list (commission * string))
  : list (Z * string * Z) :=
  let key (r : commission * string) := (POLICY_ID (fst r), snd r) in
  flat_map (fun k =>
              match map (fun r => STATEMENT_DATE (fst r))
                        (filter (fun r => key_eqb (key r) k) b) with
              | [] => []
              | d :: ds => [(k, minimum d ds)]
              end)
           (nodup key_eq_dec (map key b)).

(** [SUM(amount) ... GROUP BY POLICY_ID] over rows [(POLICY_ID, amount)]. *)
Definition group_sum (rows : list (Z * Q)) : list (Z * Q) :=
  map (fun k =>
         (k, fold_right Qplus 0%Q
                        (map snd (filter (fun r => fst r =? k) rows))))
      (nodup Z.eq_dec (map fst rows)).

Definition amount_of (r : commission * string) : Z * Q :=
  (POLICY_ID (fst r), PAID_OVERRIDE_AMOUNT (fst r)).

(** [advance]: the positive amounts booked on the first statement date. *)
Definition advance (b : list (commission * string))
                   (fs : list (Z * string * Z)) : list (Z * Q) :=
  group_sum
    (map amount_of
         (filter (fun r => Qltb 0 (PAID_OVERRIDE_AMOUNT (fst r)))
                 (flat_map
                    (fun r =>
                       flat_map
                         (fun s : Z * string * Z =>
                            if (POLICY_ID (fst r) =? fst (fst s))
                               && (STATEMENT_DATE (fst r) =? snd s)
                            then [r] else [])
                         fs)
                    b))).

(** [chargebacks]: the negative amounts of all statements. *)
Definition chargebacks (b : list (commission * string)) : list (Z * Q) :=
  group_sum
    (map amount_of
         (filter (fun r => Qltb (PAID_OVERRIDE_AMOUNT (fst r)) 0) b)).

(** [COALESCE(t.amount, 0)] after [LEFT JOIN t ON fs.POLICY_ID =
    t.POLICY_ID], for a table [t] with one row per policy. *)
Definition coalesce_amount (k : Z) (t : list (Z * Q)) : Q :=
  match find (fun r => fst r =? k) t with
  | Some r => snd r
  | None => 0%Q
  end.

(** The final SELECT; [to_varchar] is [TO_VARCHAR(date, 'YYYY-MM-DD')]. *)
Definition load_data (to_varchar : Z -> string)
                     (acp : list commission) (policies : list policy)
  : list Raw.row :=
  let b := base acp policies in
  let fs := first_statement b in
  map (fun s : Z * string * Z =>
         Raw.mk (fst (fst s)) (snd (fst s)) (Some (to_varchar (snd s)))
                (coalesce_amount (fst (fst s)) (advance b fs))
                (coalesce_amount (fst (fst s)) (chargebacks b)))
      fs.

End Ledger.

(** ** The derived columns (lines 332-340) *)

(** [lambda r: min(abs(r["CHARGEBACK_AMOUNT"]) / r["ADVANCE_AMOUNT"], 1.0)
               if r["ADVANCE_AMOUNT"] > 0 else 0] *)
Definition CB_FRACTION_of (r : Summary) : result Q :=
  if Qltb 0 (ADVANCE_AMOUNT r)
  then x <- truediv (Qabs (CHARGEBACK_AMOUNT r)) (ADVANCE_AMOUNT r) ;;
       Ok (Py.min x 1)
  else Ok 0%Q.

(** [lambda x: round(12 * (1 - x))] *)
Definition MONTHS_PAID_of (x : Q) : Z := Py.round (12 * (1 - x))%Q.

(** [lambda x: "Active" if x == 0 else "Charged Back"] *)
Definition STATUS_of (x : Q) : Status :=
  if Qeq_bool x 0 then Active else Charged_Back.

Definition classify (r : Summary) : result Classified :=
  f <- CB_FRACTION_of r ;;
  Ok (mkClassified r f (MONTHS_PAID_of f) (STATUS_of (CHARGEBACK_AMOUNT r))).

(** The three column assignments over the whole frame; an exception in any
    row aborts the script. *)
Definition classify_all (df : list Summary) : result (list Classified) :=
  mapM classify df.

(** The rounding rule the specification names, for comparison with
    [Py.round]: ties go away from zero. *)
Definition round_half_away_from_zero (x : Q) : Z :=
  if Qltb x 0 then Qceiling (x - (1 # 2))%Q else Qfloor (x + (1 # 2))%Q.

(** ** Load and clean (lines 326-330) *)

(** A cell of a datetime column: a timestamp, or pandas' missing value. *)
Inductive datetime : Type :=
| NaT
| At (day : Z).

Definition isna (t : datetime) : bool :=
  match t with NaT => true | At _ => false end.

(** [pd.to_datetime(col, errors="coerce")] on one cell.  [parse] is pandas'
    reading of a date text ([None] when the text is malformed or outside
    the representable range); a NULL cell is missing from the start. *)
Definition to_datetime (parse : string -> option Z) (cell : option string) : datetime :=
  match cell with
  | None => NaT
  | Some s => match parse s with Some d => At d | None => NaT end
  end.

(** What the script prints on the page besides the charts. *)
Inductive notice : Type :=
| warning_dropped (bad : nat)      (* st.warning(f"Dropped {bad} row(s) ...") *)
| info_no_data                     (* st.info("No data to display.") *)
| info_no_segment_data.            (* st.info("No data for this segment.") *)

(** [df.dropna(subset=["FIRST_STATEMENT_DATE"])] after the column has been
    replaced by its parsed form. *)
Fixpoint dropna (df : list (Raw.row * datetime)) : list Summary :=
  match df with
  | [] => []
  | (r, NaT) :: df' => dropna df'
  | (r, At d) :: df' =>
      mkSummary (Raw.POLICY_ID r) (Raw.POLICY_NUMBER r) d
                (Raw.ADVANCE_AMOUNT r) (Raw.CHARGEBACK_AMOUNT r) :: dropna df'
  end.

Definition parsed (parse : string -> option Z) (df : list Raw.row)
  : list (Raw.row * datetime) :=
  map (fun r => (r, to_datetime parse (Raw.FIRST_STATEMENT_DATE r))) df.

(** [bad = df["FIRST_STATEMENT_DATE"].isna().sum()] *)
Definition bad_count (df : list (Raw.row * datetime)) : nat :=
  List.length (filter (fun p => isna (snd p)) df).

Definition clean (parse : string -> option Z) (df : list Raw.row)
  : list notice * list Summary :=
  let df' := parsed parse df in
  let bad := bad_count df' in
  ((if Nat.eqb bad 0 then [] else [warning_dropped bad]), dropna df').

(** ** Sidebar date filter (lines 343-356) *)

(** [Series.min()] and [Series.max()] of a datetime column: [NaT] when the
    column is empty. *)
Fixpoint series_min (xs : list Z) : datetime :=
  match xs with
  | [] => NaT
  | x :: xs' => match series_min xs' with NaT => At x | At m => At (Z.min x m) end
  end.

Fixpoint series_max (xs : list Z) : datetime :=
  match xs with
  | [] => NaT
  | x :: xs' => match series_max xs' with NaT => At x | At m => At (Z.max x m) end
  end.

(** [pd.Timestamp("2024-01-01").date()] *)
Definition date_2024_01_01 : Z := 19723.

(** [max(min_date, pd.Timestamp("2024-01-01").date())]: [NaT.date()] is
    [NaT], and ordering [NaT] against a date raises [TypeError]. *)
Definition default_start_of (min_date : datetime) : result Z :=
  match min_date with
  | NaT => Raise TypeError
  | At d => Ok (Py.max d date_2024_01_01)
  end.

(** The arguments handed to [st.sidebar.date_input]. *)
Record date_input_args : Type := mkArgs {
  value : Z * Z;
  min_value : Z;
  max_value : Z
}.

Definition sidebar_args (df : list Classified) : result date_input_args :=
  let col := map (fun r : Classified => FIRST_STATEMENT_DATE r) df in
  let min_date := series_min col in
  let max_date := series_max col in
  default_start <- default_start_of min_date ;;
  match min_date, max_date with
  | At lo, At hi => Ok (mkArgs (default_start, hi) lo hi)
  | _, _ => Raise TypeError
  end.

(** [df[(date >= date_start) & (date <= date_end)]] *)
Definition date_filter (date_start date_end : Z) (df : list Classified)
  : list Classified :=
  filter (fun r : Classified => (date_start <=? FIRST_STATEMENT_DATE r)
                   && (FIRST_STATEMENT_DATE r <=? date_end)) df.

(** ** Segment frames (lines 359-360) *)

Definition df_ip (df : list Classified) : list Classified :=
  filter (fun r => Status_eqb (STATUS r) Charged_Back && (MONTHS_PAID r =? 0)) df.

Definition df_nip (df : list Classified) : list Classified :=
  filter (fun r => Status_eqb (STATUS r) Charged_Back && (0 <? MONTHS_PAID r)) df.

(** ** Column reductions *)

Definition Qsum (xs : list Q) : Q := fold_right Qplus 0%Q xs.

Definition Zsum (xs : list Z) : Z := fold_right Z.add 0 xs.

(** [Series.mean()]: [None] stands for NaN, the mean of no value. *)
Definition mean (xs : list Z) : option Q :=
  match xs with
  | [] => None
  | _ => Some (inject_Z (Zsum xs) / inject_Z (Z.of_nat (List.length xs)))%Q
  end.

(** ** Calendar and [resample] *)

(** The choices of the "Aggregate by" radio and pandas' offset aliases. *)
Inductive agg : Type := Day | Week | Month.

Inductive freq : Type := D | W | MS.

(** [freq_map = {"Day": "D", "Week": "W", "Month": "MS"}] *)
Definition freq_map (agg_opt : agg) : freq :=
  match agg_opt with
  | Day => D
  | Week => W
  | Month => MS
  end.

(** The proleptic Gregorian calendar.  Days are counted inside a 400-year
    era of 146097 days that starts on a 1 March (0000-03-01 is day -719468):
    an era is four centuries of 36524 days and one closing leap day, a
    century is 25 groups of four years (the last one a day short, except at
    the end of the era), a group is four years of 365 days and one closing
    leap day.  Years start in March, so the leap day is the last of its
    year. *)
Definition day_of_era (d : Z) : Z := (d + 719468) mod 146097.

(** Day of the year, 0 for 1 March up to 364 or 365 for the last of
    February, from the day of the era. *)
Definition doy_of_doe (doe : Z) : Z :=
  let century := Z.min (doe / 36524) 3 in
  let doc := doe - 36524 * century in
  let group := doc / 1461 in
  let dog := doc - 1461 * group in
  let year := Z.min (dog / 365) 3 in
  dog - 365 * year.

Definition day_of_year (d : Z) : Z := doy_of_doe (day_of_era d).

(** Day of the month, 1..31, from the day of the March-based year: the
    months March..February start on days 0, 31, 61, 92, 122, 153, 184, 214,
    245, 275, 306 and 337, which is [(153 * mp + 2) / 5]. *)
Definition dom_of_doy (doy : Z) : Z :=
  let mp := (5 * doy + 2) / 153 in
  doy - (153 * mp + 2) / 5 + 1.

Definition day_of_month (d : Z) : Z := dom_of_doy (day_of_year d).

(** The label [resample] gives to the bin that holds day [d]:
    - "D": the day itself;
    - "W" (weeks ending on Sunday, bins closed and labelled on the right):
      the first Sunday on or after [d]; day 3 (1970-01-04) is a Sunday;
    - "MS" (bins closed and labelled on the left): the first day of the
      month of [d]. *)
Definition bin_label (f : freq) (d : Z) : Z :=
  match f with
  | D => d
  | W => d + (3 - d) mod 7
  | MS => d - (day_of_month d - 1)
  end.

(** One step of the offset from a label: the next day, the next Sunday, the
    next month start (a label plus 31 days always lies in the next month). *)
Definition next_label (f : freq) (s : Z) : Z :=
  match f with
  | D => s + 1
  | W => s + 7
  | MS => bin_label MS (s + 31)
  end.

(** [date_range(start=first, end=last, freq=...)]: the labels from [s] up to
    [last], generated by repeated offset steps. *)
Fixpoint date_range (f : freq) (fuel : nat) (s last : Z) : list Z :=
  match fuel with
  | O => []
  | S fuel' =>
      if s <=? last then s :: date_range f fuel' (next_label f s) last else []
  end.

(** The bin labels of a non-empty datetime index: every label from the bin
    of the earliest timestamp to the bin of the latest one. *)
Definition time_bins (f : freq) (ax : list Z) : list Z :=
  match series_min ax, series_max ax with
  | At lo, At hi =>
      let first := bin_label f lo in
      let last := bin_label f hi in
      date_range f (S (Z.to_nat (last - first))) first last
  | _, _ => []
  end.

(** [data.set_index("FIRST_STATEMENT_DATE").resample(freq)]: each bin label
    with the rows of its bin, in row order. *)
Definition resample (f : freq) (data : list Classified)
  : list (Z * list Classified) :=
  map (fun s =>
         (s, filter (fun r : Classified =>
                       bin_label f (FIRST_STATEMENT_DATE r) =? s) data))
      (time_bins f (map (fun r : Classified => FIRST_STATEMENT_DATE r) data)).

(** ** [render_all] (lines 79-216) and [render_segment] (lines 219-320) *)

(** The time-series block of a tab: the notice shown for an empty frame, or
    the frame [ts] handed to the line charts. *)
Inductive series (A : Type) : Type :=
| no_data (n : notice)
| chart (ts : list A).

Arguments no_data {A} n.
Arguments chart {A} ts.

Definition buckets {A : Type} (v : series A) : list A :=
  match v with
  | no_data _ => []
  | chart ts => ts
  end.

Definition count_status (s : Status) (data : list Classified) : nat :=
  List.length (filter (fun r => Status_eqb (STATUS r) s) data).

Module All.

Record kpis : Type := mk_kpis {
  total : nat;
  active_n : nat;
  cb_n : nat;
  total_advanced : Q;
  total_cb : Q
}.

(** A row of [ts]: columns "Date", "Advanced", "Chargeback". *)
Record bucket : Type := mk_bucket {
  Date : Z;
  Advanced : Q;
  Chargeback : Q
}.

Record page : Type := mk_page {
  metrics : kpis;
  over_time : series bucket
}.

End All.

Module Seg.

Record kpis : Type := mk_kpis {
  total : nat;
  total_cb : Q;
  avg_cb : Q;
  avg_months : option Q
}.

(** A row of [ts]: the index and the three named aggregations. *)
Record bucket : Type := mk_bucket {
  FIRST_STATEMENT_DATE : Z;
  Count : nat;
  Chargeback : Q;
  Avg_Months : option Q
}.

Record page : Type := mk_page {
  metrics : kpis;
  over_time : series bucket
}.

End Seg.

Definition ADVANCE_col (data : list Classified) : list Q :=
  map (fun r : Classified => ADVANCE_AMOUNT r) data.

Definition CHARGEBACK_col (data : list Classified) : list Q :=
  map (fun r : Classified => CHARGEBACK_AMOUNT r) data.

Definition MONTHS_PAID_col (data : list Classified) : list Z :=
  map MONTHS_PAID data.

(** [.resample(freq)[["ADVANCE_AMOUNT", "CHARGEBACK_AMOUNT"]].sum()] followed
    by [ts["Chargeback"] = ts["Chargeback"].abs()]. *)
Definition ts_all (f : freq) (data : list Classified) : list All.bucket :=
  map (fun b =>
         All.mk_bucket (fst b)
                       (Qsum (ADVANCE_col (snd b)))
                       (Qabs (Qsum (CHARGEBACK_col (snd b)))))
      (resample f data).

Definition render_all (agg_opt : agg) (data : list Classified) : All.page :=
  All.mk_page
    (All.mk_kpis (List.length data)
                 (count_status Active data)
                 (count_status Charged_Back data)
                 (Qsum (ADVANCE_col data))
                 (Qsum (CHARGEBACK_col data)))
    (match data with
     | [] => no_data info_no_data
     | _ => chart (ts_all (freq_map agg_opt) data)
     end).

(** [.resample(freq).agg(Count=("POLICY_ID", "count"),
                        Chargeback=("CHARGEBACK_AMOUNT", "sum"),
                        Avg_Months=("MONTHS_PAID", "mean"))]
    followed by [ts["Chargeback"] = ts["Chargeback"].abs()]. *)
Definition ts_segment (f : freq) (data : list Classified) : list Seg.bucket :=
  map (fun b =>
         Seg.mk_bucket (fst b)
                       (List.length (snd b))
                       (Qabs (Qsum (CHARGEBACK_col (snd b))))
                       (mean (MONTHS_PAID_col (snd b))))
      (resample f data).

(** The [label] and [show_avg_months] arguments only name the radio and
    choose what is drawn; the figures below do not depend on them. *)
Definition render_segment (agg_opt : agg) (data : list Classified) : Seg.page :=
  let total := List.length data in
  let total_cb := Qsum (CHARGEBACK_col data) in
  Seg.mk_page
    (Seg.mk_kpis total
                 total_cb
                 (if (0 <? total)%nat
                  then (total_cb / inject_Z (Z.of_nat total))%Q
                  else 0%Q)
                 (if (0 <? total)%nat
                  then mean (MONTHS_PAID_col data)
                  else Some 0%Q))
    (match data with
     | [] => no_data info_no_data
     | _ => chart (ts_segment (freq_map agg_opt) data)
     end).

(** ** The months-paid bar charts (lines 123-141 and 296-313) *)

(** The distinct values of a column in ascending order. *)
Fixpoint insert_distinct (x : Z) (l : list Z) : list Z :=
  match l with
  | [] => [x]
  | y :: l' =>
      if x <? y then x :: y :: l'
      else if x =? y then y :: l'
      else y :: insert_distinct x l'
  end.

Definition sorted_values (xs : list Z) : list Z :=
  fold_right insert_distinct [] xs.

Definition occurrences (x : Z) (xs : list Z) : nat :=
  List.length (filter (fun y => y =? x) xs).

(** [data["MONTHS_PAID"].value_counts().reset_index()] with the columns
    renamed to "Months Paid" and "Count", after
    [sort_values("Months Paid")]: one row per value that occurs. *)
Definition month_dist (data : list Classified) : list (Z * nat) :=
  map (fun m => (m, occurrences m (MONTHS_PAID_col data)))
      (sorted_values (MONTHS_PAID_col data)).

(** [cb_data = data[data["STATUS"] == "Charged Back"]] *)
Definition cb_data (data : list Classified) : list Classified :=
  filter (fun r => Status_eqb (STATUS r) Charged_Back) data.

(** The bar chart of [render_all], drawn over the charged-back rows;
    [None] is the notice "No charged-back policies in this segment.". *)
Definition months_chart_all (data : list Classified) : option (list (Z * nat)) :=
  match cb_data data with
  | [] => None
  | _ :: _ => Some (month_dist (cb_data data))
  end.

(** The bar chart of [render_segment], drawn over the whole segment;
    [None] is the notice "No data to display.". *)
Definition months_chart_segment (data : list Classified)
  : option (list (Z * nat)) :=
  match data with
  | [] => None
  | _ :: _ => Some (month_dist data)
  end.

(** ** The script, top to bottom (lines 324-374) *)

Record dashboard : Type := mk_dashboard {
  notices : list notice;
  tab_all : All.page;
  tab_ip : Seg.page;
  tab_nip : Seg.page
}.

(** [parse] is pandas' date reader, [date_input] the sidebar widget (it
    answers with the selected range) and the three [agg] values are the
    radio choices of the tabs. *)
Definition script (parse : string -> option Z)
                  (date_input : date_input_args -> result (Z * Z))
                  (agg_all agg_ip agg_nip : agg)
                  (loaded : list Raw.row) : result dashboard :=
  let (shown, df) := clean parse loaded in
  df <- classify_all df ;;
  args <- sidebar_args df ;;
  range <- date_input args ;;
  let df := date_filter (fst range) (snd range) df in
  Ok (mk_dashboard shown
                   (render_all agg_all df)
                   (render_segment agg_ip (df_ip df))
                   (render_segment agg_nip (df_nip df))).

(** ** What the specification says, in its own words *)

(** "[cb_fraction = 0] if [advance_amount <= 0]; otherwise
    [min(|chargeback_amount| / advance_amount, 1.0)]". *)
Definition spec_cb_fraction (r : Summary) : Q :=
  if Qle_bool (ADVANCE_AMOUNT r) 0
  then 0%Q
  else Qmin (Qabs (CHARGEBACK_AMOUNT r) / ADVANCE_AMOUNT r) 1.

(** [m] is a nearest integer of [x], and the even one when [x] lies halfway
    between two integers. *)
Definition rounds_half_to_even (x : Q) (m : Z) : Prop :=
  (Qabs (inject_Z m - x) <= 1 # 2)%Q /\
  ((Qabs (inject_Z m - x) == 1 # 2)%Q -> Z.even m = true).

(** Day [d] lies in the period labelled [s]: the day itself, the week that
    ends on the Sunday [s], the month that starts on [s]. *)
Definition in_bucket (f : freq) (s d : Z) : bool :=
  match f with
  | D => d =? s
  | W => (s - 7 <? d) && (d <=? s)
  | MS => (s <=? d) && (d <? next_label MS s)
  end.

(** The datetime index of a frame. *)
Definition dates_of (data : list Classified) : list Z :=
  map (fun r : Classified => FIRST_STATEMENT_DATE r) data.

(** What the generation of the bins needs from an offset: labels grow with
    the day, the label of a day is itself a label, and one offset step leads
    from a label to the least label above it. *)
Definition is_label (f : freq) (s : Z) : Prop := bin_label f s = s.

Definition regular (f : freq) : Prop :=
  (forall a b, a <= b -> bin_label f a <= bin_label f b) /\
  (forall d, is_label f (bin_label f d)) /\
  (forall s, is_label f s ->
             s < next_label f s /\
             is_label f (next_label f s) /\
             forall t, is_label f t -> s < t -> next_label f s <= t).

(** What every row of a classified frame satisfies. *)
Definition well_classified (c : Classified) : Prop :=
  0 <= MONTHS_PAID c <= 12 /\
  (STATUS c = Active -> (CHARGEBACK_AMOUNT c == 0)%Q).

(** ** Sample policies *)

Definition policy (id date : Z) (advance chargeback : Q) : Summary :=
  mkSummary id "P"%string date advance chargeback.

(** An advance of 8 with 1 charged back: 12 * (1 - 1/8) is 10.5. *)
Definition tie_policy : Summary := policy 1 19723 8 (-1).

Definition tie_classified : Classified :=
  mkClassified tie_policy (1 # 8) 10 Charged_Back.

(** A policy with a chargeback and nothing advanced on its first statement. *)
Definition unfunded_policy : Summary := policy 2 19723 0 (-100).

Definition unfunded_classified : Classified :=
  mkClassified unfunded_policy 0 12 Charged_Back.

(** +1200 on 2024-03-01 and -600 later. *)
Definition half_policy : Summary := policy 3 19783 1200 (-600).

Definition half_classified : Classified :=
  mkClassified half_policy (600 # 1200) 6 Charged_Back.

(** +1200 and -1200 on 2024-02-01. *)
Definition full_policy : Summary := policy 9 19754 1200 (-1200).

Definition full_classified : Classified :=
  mkClassified full_policy (1200 # 1200) 0 Charged_Back.

(** +1000 on 2024-01-10, nothing charged back. *)
Definition active_policy : Summary := policy 4 19732 1000 0.

Definition active_classified : Classified :=
  mkClassified active_policy (0 # 1000) 12 Active.

(** Two fully charged-back policies first stated on 2024-01-01 and
    2024-01-03, and the frame the classifier makes of them. *)
Definition gap_policies : list Summary :=
  [ policy 5 19723 100 (-100); policy 6 19725 200 (-200) ].

Definition gap_frame : list Classified :=
  [ mkClassified (policy 5 19723 100 (-100)) (100 # 100) 0 Charged_Back;
    mkClassified (policy 6 19725 200 (-200)) (200 # 200) 0 Charged_Back ].

(** ** Python arithmetic *)

Lemma Qltb_lt (x y : Q) : Qltb x y = true <-> (x < y)%Q.
Proof.
  unfold Qltb. rewrite Qlt_alt.
  destruct (x ?= y)%Q; split; congruence.
Qed.

Lemma Qltb_ge (x y : Q) : Qltb x y = false <-> (y <= x)%Q.
Proof.
  rewrite <- not_true_iff_false, Qltb_lt. split.
  - apply Qnot_lt_le.
  - apply Qle_not_lt.
Qed.

Lemma truediv_pos (a b : Q) : (0 < b)%Q -> truediv a b = Ok (a / b)%Q.
Proof.
  intros Hb. unfold truediv.
  destruct (Qeq_bool b 0) eqn:E; [|reflexivity].
  apply Qeq_bool_iff in E. rewrite E in Hb. discriminate.
Qed.

Lemma min_Qmin (a b : Q) : (Py.min a b == Qmin a b)%Q.
Proof.
  unfold Py.min. destruct (Qltb b a) eqn:E.
  - apply Qltb_lt in E. rewrite Q.min_r; [reflexivity | apply Qlt_le_weak, E].
  - apply Qltb_ge in E. rewrite Q.min_l; [reflexivity | exact E].
Qed.

Lemma floor_bounds (x : Q) :
  (inject_Z (Qfloor x) <= x)%Q /\ (x < inject_Z (Qfloor x) + 1)%Q.
Proof.
  split; [apply Qfloor_le|].
  generalize (Qlt_floor x). rewrite inject_Z_plus. auto.
Qed.

#[global] Instance round_comp : Proper (Qeq ==> eq) Py.round.
Proof.
  intros x y E. unfold Py.round.
  rewrite (Qfloor_comp _ _ E).
  assert (C : ((x - inject_Z (Qfloor y) ?= 1 # 2) = (y - inject_Z (Qfloor y) ?= 1 # 2))%Q)
    by (apply Qcompare_comp; [rewrite E|]; reflexivity).
  rewrite C. reflexivity.
Qed.

Lemma round_inject (n : Z) : Py.round (inject_Z n) = n.
Proof.
  unfold Py.round. rewrite Qfloor_Z.
  assert (C : ((inject_Z n - inject_Z n ?= 1 # 2) = Lt)%Q).
  { rewrite <- Qlt_alt. lra. }
  rewrite C. reflexivity.
Qed.

(** Integer facts read off rational ones. *)
Ltac Z_of_Q :=
  first [ rewrite Zle_Qle | rewrite Zlt_Qlt ];
  rewrite ?inject_Z_plus, ?inject_Z_opp; change (inject_Z 1) with 1%Q.

Lemma round_cases (x : Q) :
  let f := Qfloor x in
  ((x - inject_Z f < 1 # 2)%Q /\ Py.round x = f) \/
  ((1 # 2 < x - inject_Z f)%Q /\ Py.round x = f + 1) \/
  ((x - inject_Z f == 1 # 2)%Q /\
   Py.round x = if Z.even f then f else f + 1).
Proof.
  unfold Py.round. cbv zeta.
  destruct (Qcompare_spec (x - inject_Z (Qfloor x)) (1 # 2)); auto.
Qed.

Lemma round_nearest (x : Q) : rounds_half_to_even x (Py.round x).
Proof.
  destruct (floor_bounds x) as [Hlo Hhi].
  destruct (round_cases x) as [[H E] | [[H E] | [H E]]]; rewrite E; clear E;
    unfold rounds_half_to_even.
  - split.
    + apply Qabs_Qle_condition. split; lra.
    + intros A. exfalso. rewrite Qabs_neg in A by lra. lra.
  - rewrite inject_Z_plus. change (inject_Z 1) with 1%Q. split.
    + apply Qabs_Qle_condition. split; lra.
    + intros A. exfalso. rewrite Qabs_pos in A by lra. lra.
  - destruct (Z.even (Qfloor x)) eqn:Ev.
    + split; [|auto]. apply Qabs_Qle_condition. split; lra.
    + split.
      * rewrite inject_Z_plus. change (inject_Z 1) with 1%Q.
        apply Qabs_Qle_condition. split; lra.
      * intros _. rewrite Z.even_add, Ev. reflexivity.
Qed.

Lemma round_between (x : Q) (lo hi : Z) :
  (inject_Z lo <= x)%Q -> (x <= inject_Z hi)%Q -> lo <= Py.round x <= hi.
Proof.
  intros Hlo Hhi.
  destruct (floor_bounds x) as [Fl Fh].
  assert (L : lo <= Qfloor x).
  { apply Z.lt_succ_r. unfold Z.succ. Z_of_Q. lra. }
  assert (H : Qfloor x <= hi) by (Z_of_Q; lra).
  destruct (round_cases x) as [[C E] | [[C E] | [C E]]]; rewrite E; clear E.
  - lia.
  - split; [lia|]. apply Z.lt_succ_r. unfold Z.succ. Z_of_Q. lra.
  - destruct (Z.even (Qfloor x)); [lia|].
    split; [lia|]. apply Z.lt_succ_r. unfold Z.succ. Z_of_Q. lra.
Qed.

(** Away from the exact halves the two rounding rules agree; on a half the
    built-in [round] is one below whenever the floor is even. *)
Lemma round_versus_half_away (x : Q) :
  (0 <= x)%Q ->
  Py.round x = round_half_away_from_zero x \/
  ((x - inject_Z (Qfloor x) == 1 # 2)%Q /\ Z.even (Qfloor x) = true /\
   Py.round x = round_half_away_from_zero x - 1).
Proof.
  intros Hx.
  destruct (floor_bounds x) as [Fl Fh].
  assert (A : round_half_away_from_zero x = Qfloor (x + (1 # 2))).
  { unfold round_half_away_from_zero.
    destruct (Qltb x 0) eqn:E; [|reflexivity].
    apply Qltb_lt in E. lra. }
  destruct (floor_bounds (x + (1 # 2))) as [Gl Gh].
  destruct (round_cases x) as [[C E] | [[C E] | [C E]]]; rewrite E, A; clear E A.
  - left. apply Z.le_antisymm.
    + apply Qfloor_resp_le. lra.
    + apply Z.lt_succ_r. unfold Z.succ. Z_of_Q. lra.
  - left. apply Z.le_antisymm.
    + apply Z.lt_succ_r. unfold Z.succ. Z_of_Q. lra.
    + apply Z.lt_succ_r. unfold Z.succ. Z_of_Q. lra.
  - assert (U : Qfloor (x + (1 # 2)) = Qfloor x + 1).
    { apply Z.le_antisymm.
      - apply Z.lt_succ_r. unfold Z.succ. Z_of_Q. lra.
      - apply Z.lt_succ_r. unfold Z.succ. Z_of_Q. lra. }
    rewrite U. destruct (Z.even (Qfloor x)) eqn:Ev.
    + right. repeat split; auto. lia.
    + left. reflexivity.
Qed.

Lemma round_below_12 (x : Q) : Py.round x < 12 <-> (x < 23 # 2)%Q.
Proof.
  destruct (floor_bounds x) as [Fl Fh].
  split.
  - intros R. apply Qnot_le_lt. intros Hx.
    assert (F : 11 <= Qfloor x).
    { apply Z.lt_succ_r. unfold Z.succ. Z_of_Q.
      change (inject_Z 11) with 11%Q. lra. }
    destruct (round_cases x) as [[C E] | [[C E] | [C E]]]; rewrite E in R.
    + assert (Qfloor x = 11) as E11 by lia. rewrite E11 in C.
      change (inject_Z 11) with 11%Q in C. lra.
    + lia.
    + destruct (Z.even (Qfloor x)) eqn:Ev; [|lia].
      assert (Qfloor x = 11) as E11 by lia. rewrite E11 in Ev. discriminate.
  - intros Hx.
    assert (F : Qfloor x < 12).
    { Z_of_Q. change (inject_Z 12) with 12%Q. lra. }
    destruct (round_cases x) as [[C E] | [[C E] | [C E]]]; rewrite E.
    + exact F.
    + assert (Qfloor x < 11); [|lia].
      Z_of_Q. change (inject_Z 11) with 11%Q. lra.
    + assert (Qfloor x < 11); [|destruct (Z.even (Qfloor x)); lia].
      Z_of_Q. change (inject_Z 11) with 11%Q. lra.
Qed.

(** ** The classifier *)

Lemma fraction_nonneg (a b : Q) : (0 < b)%Q -> (0 <= Qabs a / b)%Q.
Proof.
  intros Hb. apply Qle_shift_div_l; [exact Hb|].
  rewrite Qmult_0_l. apply Qabs_nonneg.
Qed.

Lemma CB_FRACTION_of_ok (r : Summary) :
  exists f, CB_FRACTION_of r = Ok f /\
            (f == spec_cb_fraction r)%Q /\ (0 <= f <= 1)%Q.
Proof.
  unfold CB_FRACTION_of, spec_cb_fraction.
  destruct (Qltb 0 (ADVANCE_AMOUNT r)) eqn:E.
  - apply Qltb_lt in E. rewrite (truediv_pos _ _ E). cbn [bind].
    set (x := (Qabs (CHARGEBACK_AMOUNT r) / ADVANCE_AMOUNT r)%Q).
    assert (Hx : (0 <= x)%Q) by (apply fraction_nonneg, E).
    exists (Py.min x 1). split; [reflexivity|].
    destruct (Qle_bool (ADVANCE_AMOUNT r) 0) eqn:L.
    { apply Qle_bool_iff in L. lra. }
    split; [apply min_Qmin|].
    rewrite min_Qmin. split.
    + apply Q.min_glb; lra.
    + apply Q.le_min_r.
  - apply Qltb_ge in E. exists 0%Q. split; [reflexivity|].
    apply Qle_bool_iff in E. rewrite E.
    split; [reflexivity | lra].
Qed.

Lemma classify_inv (r : Summary) (c : Classified) :
  classify r = Ok c ->
  summary c = r /\
  CB_FRACTION_of r = Ok (CB_FRACTION c) /\
  MONTHS_PAID c = MONTHS_PAID_of (CB_FRACTION c) /\
  STATUS c = STATUS_of (CHARGEBACK_AMOUNT r).
Proof.
  unfold classify. destruct (CB_FRACTION_of r) as [f|e]; cbn [bind]; intros H.
  - injection H as <-. auto.
  - discriminate.
Qed.

Lemma classify_total (r : Summary) : exists c, classify r = Ok c.
Proof.
  destruct (CB_FRACTION_of_ok r) as (f & E & _).
  unfold classify. rewrite E. cbn [bind]. eauto.
Qed.

Lemma classify_all_total (df : list Summary) :
  exists cs, classify_all df = Ok cs /\ Forall2 (fun r c => classify r = Ok c) df cs.
Proof.
  unfold classify_all. induction df as [|r df IH]; cbn [mapM].
  - exists []. split; [reflexivity | constructor].
  - destruct (classify_total r) as [c Hc].
    destruct IH as (cs & E & F).
    rewrite Hc, E. cbn [bind].
    exists (c :: cs). split; [reflexivity | constructor; assumption].
Qed.

Lemma fraction_of_classified (r : Summary) (c : Classified) :
  classify r = Ok c ->
  (CB_FRACTION c == spec_cb_fraction r)%Q /\ (0 <= CB_FRACTION c <= 1)%Q.
Proof.
  intros H. destruct (classify_inv _ _ H) as (_ & F & _).
  destruct (CB_FRACTION_of_ok r) as (f & E & S & B).
  rewrite E in F. injection F as ->. auto.
Qed.

Lemma STATUS_of_Active (x : Q) : STATUS_of x = Active <-> (x == 0)%Q.
Proof.
  unfold STATUS_of. destruct (Qeq_bool x 0) eqn:E.
  - apply Qeq_bool_iff in E. tauto.
  - split; [discriminate|]. intros H. apply Qeq_bool_iff in H. congruence.
Qed.

(** C3.  The classifier never raises (the division is reached only with a
    positive advance, also for a whole frame); the fraction it stores is 0
    when [advance_amount <= 0], whatever the chargeback, and
    [min(|chargeback_amount| / advance_amount, 1)] otherwise; it always lies
    in [[0, 1]]. *)
Theorem cb_fraction_guarded :
  (forall r : Summary,
      exists c, classify r = Ok c /\ summary c = r /\
                (CB_FRACTION c == spec_cb_fraction r)%Q /\
                (0 <= CB_FRACTION c <= 1)%Q) /\
  (forall df : list Summary,
      exists cs, classify_all df = Ok cs /\ List.length cs = List.length df).
Proof.
  split.
  - intros r. destruct (classify_total r) as [c Hc]. exists c.
    split; [exact Hc|].
    split; [apply (classify_inv _ _ Hc)|].
    apply fraction_of_classified, Hc.
  - intros df. destruct (classify_all_total df) as (cs & E & F).
    exists cs. split; [exact E|].
    symmetry. eapply Forall2_length, F.
Qed.



(** C4.  The status is [Active] exactly when the chargeback amount is zero,
    and ["Charged Back"] exactly when it is not. *)
Theorem status_active_iff (r : Summary) :
  exists c, classify r = Ok c /\
    (STATUS c = Active <-> (CHARGEBACK_AMOUNT r == 0)%Q) /\
    (STATUS c = Charged_Back <-> ~ (CHARGEBACK_AMOUNT r == 0)%Q).
Proof.
  destruct (classify_total r) as [c Hc]. exists c.
  split; [exact Hc|].
  destruct (classify_inv _ _ Hc) as (_ & _ & _ & S).
  rewrite S, <- STATUS_of_Active.
  destruct (STATUS_of (CHARGEBACK_AMOUNT r)); split; split;
    congruence.
Qed.

Lemma spec_fraction_above (r : Summary) (t : Q) :
  (0 <= t < 1)%Q ->
  (t < spec_cb_fraction r)%Q <->
  (0 < ADVANCE_AMOUNT r)%Q /\
  (t * ADVANCE_AMOUNT r < Qabs (CHARGEBACK_AMOUNT r))%Q.
Proof.
  intros Ht. unfold spec_cb_fraction.
  destruct (Qle_bool (ADVANCE_AMOUNT r) 0) eqn:E.
  - apply Qle_bool_iff in E. split; intros H; lra.
  - assert (A : (0 < ADVANCE_AMOUNT r)%Q).
    { apply Qnot_le_lt. intros H. apply Qle_bool_iff in H. congruence. }
    set (q := (Qabs (CHARGEBACK_AMOUNT r) / ADVANCE_AMOUNT r)%Q).
    assert (Q1 : (t < Qmin q 1 <-> t < q)%Q).
    { destruct (Q.min_spec q 1) as [[L M] | [L M]]; rewrite M; split; lra. }
    rewrite Q1. unfold q. split.
    + intros H. split; [exact A|].
      apply (Qmult_lt_r _ _ _ A) in H.
      assert (E' : (Qabs (CHARGEBACK_AMOUNT r) / ADVANCE_AMOUNT r
                    * ADVANCE_AMOUNT r == Qabs (CHARGEBACK_AMOUNT r))%Q).
      { field. lra. }
      rewrite E' in H. exact H.
    + intros [_ H]. apply Qlt_shift_div_l; assumption.
Qed.

(** C5, as the code has it.  A charged-back policy has at most 12 months
    paid, and fewer than 12 exactly when its advance is positive and the
    chargeback exceeds one twenty-fourth of it; with nothing advanced, or
    with a smaller chargeback, it keeps all 12. *)
Theorem charged_back_months (r : Summary) (c : Classified) :
  classify r = Ok c ->
  STATUS c = Charged_Back ->
  MONTHS_PAID c <= 12 /\
  (MONTHS_PAID c < 12 <->
   (0 < ADVANCE_AMOUNT r)%Q /\
   (ADVANCE_AMOUNT r < 24 * Qabs (CHARGEBACK_AMOUNT r))%Q).
Proof.
  intros Hc _.
  destruct (classify_inv _ _ Hc) as (_ & _ & M & _).
  destruct (fraction_of_classified _ _ Hc) as (S & B).
  rewrite M. unfold MONTHS_PAID_of. split.
  - apply (round_between _ 0 12).
    + change (inject_Z 0) with 0%Q. lra.
    + change (inject_Z 12) with 12%Q. lra.
  - rewrite round_below_12.
    assert (T : (0 <= 1 # 24 < 1)%Q) by lra.
    pose proof (spec_fraction_above r (1 # 24) T) as F.
    rewrite <- S in F. split.
    + intros H. assert (G : (1 # 24 < CB_FRACTION c)%Q) by lra.
      apply F in G. destruct G as [G1 G2]. split; lra.
    + intros [G1 G2].
      assert (G : (1 # 24 < CB_FRACTION c)%Q) by (apply F; split; lra).
      lra.
Qed.

Lemma charged_back_months_witness :
  MONTHS_PAID half_classified <= 12 /\
  (MONTHS_PAID half_classified < 12 <->
   (0 < ADVANCE_AMOUNT half_policy)%Q /\
   (ADVANCE_AMOUNT half_policy < 24 * Qabs (CHARGEBACK_AMOUNT half_policy))%Q).
Proof.
  apply (charged_back_months half_policy half_classified);
    reflexivity.
Defined.

(** C5, refuted as stated: a policy with a chargeback of 100 and nothing
    advanced on its first statement is ["Charged Back"] with 12 months
    paid. *)
Lemma charged_back_with_12_months :
  classify unfunded_policy = Ok unfunded_classified /\
  STATUS unfunded_classified = Charged_Back /\
  MONTHS_PAID unfunded_classified = 12.
Proof.
  repeat split; reflexivity.
Qed.

(** C10.  An [Active] policy (zero chargeback) has fraction 0 and 12 months
    paid, whatever its advance, and is a row of neither segment frame. *)
Theorem active_is_fully_paid (r : Summary) (c : Classified) :
  classify r = Ok c ->
  STATUS c = Active ->
  (CHARGEBACK_AMOUNT r == 0)%Q /\
  (CB_FRACTION c == 0)%Q /\
  MONTHS_PAID c = 12 /\
  (forall df, ~ In c (df_ip df)) /\
  (forall df, ~ In c (df_nip df)).
Proof.
  intros Hc Hs.
  destruct (classify_inv _ _ Hc) as (_ & _ & M & S).
  destruct (fraction_of_classified _ _ Hc) as (F & B).
  assert (Z0 : (CHARGEBACK_AMOUNT r == 0)%Q).
  { apply STATUS_of_Active. congruence. }
  assert (F0 : (CB_FRACTION c == 0)%Q).
  { rewrite F. unfold spec_cb_fraction.
    destruct (Qle_bool (ADVANCE_AMOUNT r) 0); [reflexivity|].
    assert (E : (Qabs (CHARGEBACK_AMOUNT r) / ADVANCE_AMOUNT r == 0)%Q).
    { rewrite Z0. reflexivity. }
    rewrite E. reflexivity. }
  split; [exact Z0|]. split; [exact F0|]. split.
  - rewrite M. unfold MONTHS_PAID_of.
    assert (E : (12 * (1 - CB_FRACTION c) == inject_Z 12)%Q).
    { rewrite F0. reflexivity. }
    rewrite E. apply round_inject.
  - split; intros df H; apply filter_In in H; destruct H as [_ H];
      rewrite Hs in H; discriminate.
Qed.

Lemma active_is_fully_paid_witness :
  (CHARGEBACK_AMOUNT active_policy == 0)%Q /\
  (CB_FRACTION active_classified == 0)%Q /\
  MONTHS_PAID active_classified = 12 /\
  (forall df, ~ In active_classified (df_ip df)) /\
  (forall df, ~ In active_classified (df_nip df)).
Proof.
  apply (active_is_fully_paid active_policy active_classified);
    reflexivity.
Defined.

(** ** Cleaning *)

Section Cleaning.

Variable parse : string -> option Z.

Lemma dropna_length (df : list Raw.row) :
  (List.length (dropna (parsed parse df)) + bad_count (parsed parse df)
   = List.length df)%nat.
Proof.
  unfold bad_count. induction df as [|r df IH]; [reflexivity|].
  cbn [parsed map dropna filter snd].
  fold (parsed parse df).
  destruct (to_datetime parse (Raw.FIRST_STATEMENT_DATE r));
    cbn [isna List.length]; lia.
Qed.

Lemma bad_count_filter (df : list Raw.row) :
  bad_count (parsed parse df)
  = List.length
    (filter (fun r => isna (to_datetime parse (Raw.FIRST_STATEMENT_DATE r))) df).
Proof.
  unfold bad_count. induction df as [|r df IH]; [reflexivity|].
  cbn [parsed map filter snd]. fold (parsed parse df).
  destruct (isna (to_datetime parse (Raw.FIRST_STATEMENT_DATE r)));
    cbn [List.length]; congruence.
Qed.

Lemma dropna_In (df : list Raw.row) (s : Summary) :
  In s (dropna (parsed parse df)) <->
  exists r, In r df /\
            to_datetime parse (Raw.FIRST_STATEMENT_DATE r)
            = At (FIRST_STATEMENT_DATE s) /\
            s = mkSummary (Raw.POLICY_ID r) (Raw.POLICY_NUMBER r)
                          (FIRST_STATEMENT_DATE s)
                          (Raw.ADVANCE_AMOUNT r) (Raw.CHARGEBACK_AMOUNT r).
Proof.
  induction df as [|r df IH].
  - split; [intros [] | intros (r & [] & _)].
  - cbn [parsed map dropna]. fold (parsed parse df).
    destruct (to_datetime parse (Raw.FIRST_STATEMENT_DATE r)) as [|d] eqn:E.
    + rewrite IH. split.
      * intros (r' & I & H). exists r'. split; [right; exact I | exact H].
      * intros (r' & [<- | I] & H1 & H2); [congruence|].
        exists r'. auto.
    + cbn [In]. rewrite IH. split.
      * intros [<- | (r' & I & H)].
        -- exists r. cbn. auto.
        -- exists r'. split; [right; exact I | exact H].
      * intros (r' & [<- | I] & H1 & H2).
        -- left. rewrite H2. rewrite E in H1. injection H1 as <-.
           reflexivity.
        -- right. exists r'. auto.
Qed.

End Cleaning.

(** ** The empty frame *)

Lemma sidebar_args_empty : sidebar_args [] = Raise TypeError.
Proof. reflexivity. Qed.

Lemma series_min_In (xs : list Z) :
  match series_min xs with
  | NaT => xs = []
  | At m => In m xs /\ forall x, In x xs -> m <= x
  end.
Proof.
  induction xs as [|x xs IH]; [reflexivity|].
  cbn [series_min]. destruct (series_min xs) as [|m].
  - subst xs. split; [left; reflexivity|]. intros y [<- | []]. lia.
  - destruct IH as [I L]. split.
    + destruct (Z.min_spec x m) as [[_ ->] | [_ ->]]; [left | right]; auto.
    + intros y [<- | H]; [lia|]. specialize (L y H). lia.
Qed.

Lemma series_max_In (xs : list Z) :
  match series_max xs with
  | NaT => xs = []
  | At m => In m xs /\ forall x, In x xs -> x <= m
  end.
Proof.
  induction xs as [|x xs IH]; [reflexivity|].
  cbn [series_max]. destruct (series_max xs) as [|m].
  - subst xs. split; [left; reflexivity|]. intros y [<- | []]. lia.
  - destruct IH as [I L]. split.
    + destruct (Z.max_spec x m) as [[_ ->] | [_ ->]]; [right | left]; auto.
    + intros y [<- | H]; [lia|]. specialize (L y H). lia.
Qed.

(** With at least one row the sidebar gets its arguments. *)
Lemma sidebar_args_nonempty (r : Classified) (df : list Classified) :
  exists a, sidebar_args (r :: df) = Ok a /\ min_value a <= max_value a.
Proof.
  unfold sidebar_args.
  set (col := map (fun r : Classified => FIRST_STATEMENT_DATE r) (r :: df)).
  pose proof (series_min_In col) as Hmin.
  pose proof (series_max_In col) as Hmax.
  destruct (series_min col) as [|lo]; [discriminate|].
  destruct (series_max col) as [|hi]; [discriminate|].
  cbn [default_start_of bind]. eexists. split; [reflexivity|].
  cbn [min_value max_value]. destruct Hmin as [I _], Hmax as [_ L]. auto.
Qed.

(** An empty frame handed to a tab gives zero metrics and no bucket. *)
Lemma render_segment_empty (agg_opt : agg) :
  render_segment agg_opt []
  = Seg.mk_page (Seg.mk_kpis 0 0 0 (Some 0%Q)) (no_data info_no_data).
Proof. reflexivity. Qed.

Lemma render_all_empty (agg_opt : agg) :
  render_all agg_opt []
  = All.mk_page (All.mk_kpis 0 0 0 0 0) (no_data info_no_data).
Proof. reflexivity. Qed.


(** With a survivor and an answer from the widget the script returns its
    three tabs, and the warning of the cleaning step with them. *)
Lemma script_returns (parse : string -> option Z)
                     (date_input : date_input_args -> result (Z * Z))
                     (agg_all agg_ip agg_nip : agg)
                     (loaded : list Raw.row) :
  snd (clean parse loaded) <> [] ->
  (forall a, exists range, date_input a = Ok range) ->
  exists d, script parse date_input agg_all agg_ip agg_nip loaded = Ok d /\
            notices d = fst (clean parse loaded).
Proof.
  intros NE Widget. unfold script.
  destruct (clean parse loaded) as [shown df]. cbn [fst snd] in *.
  destruct (classify_all_total df) as (cs & E & F). rewrite E. cbn [bind].
  destruct F as [|r c df cs' _ _]; [congruence|].
  destruct (sidebar_args_nonempty c cs') as (a & Ha & _). rewrite Ha.
  cbn [bind]. destruct (Widget a) as [range Hr]. rewrite Hr. cbn [bind].
  eexists. split; reflexivity.
Qed.

(** C9, at the failing input.  When no row is left after cleaning (nothing
    loaded, or no date parsed) the script stops with a [TypeError] at the
    sidebar defaults, before any tab is rendered. *)
Theorem empty_frame_raises (parse : string -> option Z)
                           (date_input : date_input_args -> result (Z * Z))
                           (agg_all agg_ip agg_nip : agg) :
  script parse date_input agg_all agg_ip agg_nip [] = Raise TypeError /\
  script parse date_input agg_all agg_ip agg_nip
         [Raw.mk 1 "P"%string None 100 (-50)] = Raise TypeError.
Proof.
  split; reflexivity.
Qed.

(** ** The calendar *)

Lemma day_of_era_range (d : Z) : 0 <= day_of_era d < 146097.
Proof. unfold day_of_era. apply Z.mod_pos_bound. lia. Qed.

Lemma day_of_era_succ (d : Z) :
  (day_of_era d < 146096 /\ day_of_era (d + 1) = day_of_era d + 1) \/
  (day_of_era d = 146096 /\ day_of_era (d + 1) = 0).
Proof.
  unfold day_of_era. Z.div_mod_to_equations. lia.
Qed.

Lemma doy_of_doe_step (e : Z) :
  0 <= e < 146097 ->
  0 <= doy_of_doe e <= 365 /\
  (e < 146096 -> doy_of_doe (e + 1) = doy_of_doe e + 1 \/
                 (doy_of_doe (e + 1) = 0 /\ 364 <= doy_of_doe e)).
Proof.
  intros He. unfold doy_of_doe. cbv zeta.
  split; [|intros Hl]; Z.div_mod_to_equations; lia.
Qed.

Lemma dom_of_doy_step (y : Z) :
  0 <= y <= 365 ->
  1 <= dom_of_doy y <= 31 /\
  (y < 365 -> dom_of_doy (y + 1) = dom_of_doy y + 1 \/
              (dom_of_doy (y + 1) = 1 /\ 28 <= dom_of_doy y)) /\
  (364 <= y -> 28 <= dom_of_doy y).
Proof.
  intros Hy. unfold dom_of_doy. cbv zeta.
  split; [|split; intros Hl]; Z.div_mod_to_equations; lia.
Qed.

Lemma day_of_month_range (d : Z) : 1 <= day_of_month d <= 31.
Proof.
  unfold day_of_month, day_of_year.
  apply dom_of_doy_step, doy_of_doe_step, day_of_era_range.
Qed.

(** From one day to the next the day of the month grows by one, or a month
    of at least 28 days ends. *)
Lemma day_of_month_succ (d : Z) :
  day_of_month (d + 1) = day_of_month d + 1 \/
  (day_of_month (d + 1) = 1 /\ 28 <= day_of_month d).
Proof.
  unfold day_of_month, day_of_year.
  pose proof (day_of_era_range d) as R.
  destruct (doy_of_doe_step _ R) as [Y S].
  destruct (dom_of_doy_step _ Y) as (_ & N & L).
  assert (Z0 : dom_of_doy 0 = 1) by reflexivity.
  destruct (day_of_era_succ d) as [[Lt ->] | [E ->]].
  - destruct (S Lt) as [Eq | [Eq G]].
    + pose proof (doy_of_doe_step (day_of_era d + 1)) as [B _]; [lia|].
      rewrite Eq in *. apply N. lia.
    + rewrite Eq. right. split; [exact Z0 | apply L, G].
  - right. split; [exact Z0|]. rewrite E. cbv. discriminate.
Qed.

Lemma month_label_bounds (d : Z) : d - 30 <= bin_label MS d <= d.
Proof.
  cbn [bin_label]. pose proof (day_of_month_range d). lia.
Qed.

Lemma month_label_succ (d : Z) :
  bin_label MS (d + 1) = bin_label MS d \/
  (bin_label MS (d + 1) = d + 1 /\ bin_label MS d <= d - 27).
Proof.
  cbn [bin_label]. destruct (day_of_month_succ d) as [E | [E G]]; lia.
Qed.

Lemma month_label_mono (a b : Z) : a <= b -> bin_label MS a <= bin_label MS b.
Proof.
  intros H.
  assert (G : forall n : nat, bin_label MS a <= bin_label MS (a + Z.of_nat n)).
  { induction n as [|n IH].
    - rewrite Z.add_0_r. lia.
    - replace (a + Z.of_nat (S n)) with (a + Z.of_nat n + 1) by lia.
      pose proof (month_label_bounds (a + Z.of_nat n)).
      destruct (month_label_succ (a + Z.of_nat n)) as [E | [E _]]; lia. }
  specialize (G (Z.to_nat (b - a))).
  replace (a + Z.of_nat (Z.to_nat (b - a))) with b in G by lia.
  exact G.
Qed.

Lemma month_label_start (d : Z) : day_of_month (bin_label MS d) = 1.
Proof.
  cbn [bin_label].
  assert (G : forall (k : nat) (e : Z),
             day_of_month e = 1 + Z.of_nat k ->
             day_of_month (e - Z.of_nat k) = 1).
  { induction k as [|k IH]; intros e He.
    - rewrite Z.sub_0_r. exact He.
    - replace (e - Z.of_nat (S k)) with (e - 1 - Z.of_nat k) by lia.
      apply IH.
      destruct (day_of_month_succ (e - 1)) as [E | [E _]];
        replace (e - 1 + 1) with e in E by lia; lia. }
  pose proof (day_of_month_range d) as R.
  specialize (G (Z.to_nat (day_of_month d - 1)) d).
  replace (Z.of_nat (Z.to_nat (day_of_month d - 1)))
    with (day_of_month d - 1) in G by lia.
  apply G. lia.
Qed.

Lemma month_label_idem (d : Z) : is_label MS (bin_label MS d).
Proof.
  unfold is_label. pose proof (month_label_start d) as H.
  cbn [bin_label] in *. lia.
Qed.

(** Two month starts are at least 28 days apart. *)
Lemma month_starts_apart (s t : Z) :
  is_label MS s -> is_label MS t -> s < t -> s + 28 <= t.
Proof.
  unfold is_label. intros Hs Ht Hlt.
  assert (M : bin_label MS s <= bin_label MS (t - 1))
    by (apply month_label_mono; lia).
  destruct (month_label_succ (t - 1)) as [E | [_ G]];
    replace (t - 1 + 1) with t in * by lia.
  - pose proof (month_label_bounds (t - 1)). lia.
  - lia.
Qed.

Lemma regular_D : regular D.
Proof.
  unfold regular, is_label. cbn [bin_label next_label].
  repeat split; intros; lia.
Qed.

Lemma regular_W : regular W.
Proof.
  unfold regular, is_label. cbn [bin_label next_label].
  repeat split; intros; Z.div_mod_to_equations; lia.
Qed.

Lemma regular_MS : regular MS.
Proof.
  unfold regular. split; [exact month_label_mono|].
  split; [exact month_label_idem|].
  intros s Hs. cbn [next_label].
  pose proof (month_label_bounds (s + 31)) as B.
  split; [lia|]. split; [apply month_label_idem|].
  intros t Ht Hlt.
  destruct (Z_le_gt_dec (s + 31) t) as [Far | Near]; [lia|].
  assert (M : bin_label MS t <= bin_label MS (s + 31))
    by (apply month_label_mono; lia).
  rewrite Ht in M.
  destruct (Z.eq_dec t (bin_label MS (s + 31))) as [E | N]; [lia|].
  pose proof (month_starts_apart s t Hs Ht Hlt).
  pose proof (month_starts_apart t (bin_label MS (s + 31)) Ht
                                 (month_label_idem _)).
  lia.
Qed.

Lemma regular_all (f : freq) : regular f.
Proof.
  destruct f; [exact regular_D | exact regular_W | exact regular_MS].
Qed.

(** ** Bin labels *)

Lemma date_range_spec (f : freq) (last : Z) (fuel : nat) (s : Z) :
  is_label f s ->
  last - s < Z.of_nat fuel ->
  (forall t, In t (date_range f fuel s last) <->
             is_label f t /\ s <= t <= last) /\
  StronglySorted Z.lt (date_range f fuel s last).
Proof.
  destruct (regular_all f) as (_ & _ & Next).
  revert s. induction fuel as [|fuel IH]; intros s Hs Hfuel.
  - cbn [date_range]. split; [|constructor].
    intros t. split; [intros [] | intros [_ H]; lia].
  - cbn [date_range]. destruct (Z.leb_spec s last) as [Hle | Hgt].
    + destruct (Next s Hs) as (Hlt & Hn & Hleast).
      destruct (IH (next_label f s) Hn) as [Mem Sorted]; [lia|].
      split.
      * intros t. cbn [In]. rewrite Mem. split.
        -- intros [<- | [Ht Hr]]; split; auto; lia.
        -- intros [Ht Hr].
           destruct (Z.eq_dec s t) as [E | N]; [left; exact E | right].
           split; [exact Ht|]. split; [apply Hleast; [exact Ht | lia] | lia].
      * constructor; [exact Sorted|].
        apply Forall_forall. intros t Ht. apply Mem in Ht. lia.
    + split; [|constructor].
      intros t. split; [intros [] | intros [_ H]; lia].
Qed.

Lemma time_bins_spec (f : freq) (ax : list Z) :
  (forall t, In t (time_bins f ax) <->
             is_label f t /\
             exists a b, In a ax /\ In b ax /\
                         bin_label f a <= t <= bin_label f b) /\
  StronglySorted Z.lt (time_bins f ax).
Proof.
  destruct (regular_all f) as (Mono & Idem & _).
  unfold time_bins.
  pose proof (series_min_In ax) as Hmin.
  pose proof (series_max_In ax) as Hmax.
  destruct (series_min ax) as [|lo].
  { subst ax. cbn. split; [|constructor].
    intros t. split; [intros [] | intros (_ & a & _ & [] & _)]. }
  destruct (series_max ax) as [|hi].
  { subst ax. destruct Hmin as [[] _]. }
  destruct Hmin as [Ilo Llo], Hmax as [Ihi Lhi].
  destruct (date_range_spec f (bin_label f hi)
              (S (Z.to_nat (bin_label f hi - bin_label f lo)))
              (bin_label f lo) (Idem lo)) as [Mem Sorted]; [lia|].
  split; [|exact Sorted].
  intros t. rewrite Mem. split.
  - intros [Ht Hr]. split; [exact Ht|]. exists lo, hi. auto.
  - intros (Ht & a & b & Ia & Ib & Hr). split; [exact Ht|].
    pose proof (Mono lo a (Llo a Ia)). pose proof (Mono b hi (Lhi b Ib)). lia.
Qed.

Lemma time_bins_cover (f : freq) (ax : list Z) (d : Z) :
  In d ax -> In (bin_label f d) (time_bins f ax).
Proof.
  intros H. apply time_bins_spec.
  split; [apply (regular_all f)|].
  exists d, d. split; [exact H|]. split; [exact H | lia].
Qed.

Lemma StronglySorted_lt_NoDup (l : list Z) : StronglySorted Z.lt l -> NoDup l.
Proof.
  induction 1 as [|x l _ IH F]; constructor; [|exact IH].
  intros I. rewrite Forall_forall in F. specialize (F x I). lia.
Qed.

Lemma time_bins_NoDup (f : freq) (ax : list Z) : NoDup (time_bins f ax).
Proof. apply StronglySorted_lt_NoDup, time_bins_spec. Qed.

(** The rows of the bin labelled [s] are the rows whose date lies in the
    period of [s]. *)
Lemma in_bucket_label (f : freq) (s d : Z) :
  is_label f s -> (bin_label f d = s <-> in_bucket f s d = true).
Proof.
  destruct f; unfold is_label; intros Hs.
  - cbn [bin_label in_bucket]. rewrite Z.eqb_eq. tauto.
  - cbn [bin_label in_bucket] in *.
    rewrite andb_true_iff, Z.ltb_lt, Z.leb_le.
    Z.div_mod_to_equations. lia.
  - destruct regular_MS as (Mono & Idem & Next).
    destruct (Next s Hs) as (Hlt & Hn & Hleast).
    pose proof (month_label_bounds d) as B.
    unfold in_bucket. rewrite andb_true_iff, Z.leb_le, Z.ltb_lt. split.
    + intros E. split; [lia|].
      destruct (Z_lt_le_dec d (next_label MS s)) as [L | G]; [exact L|].
      apply Mono in G. unfold is_label in Hn. lia.
    + intros [L U]. apply Z.le_antisymm.
      * destruct (Z_le_gt_dec (bin_label MS d) s) as [Le | Gt]; [exact Le|].
        specialize (Hleast (bin_label MS d) (Idem d)). lia.
      * rewrite <- Hs. apply Mono, L.
Qed.

Lemma time_bins_labels (f : freq) (ax : list Z) (s : Z) :
  In s (time_bins f ax) -> is_label f s.
Proof. intros H. apply time_bins_spec in H. tauto. Qed.

Lemma bin_rows (f : freq) (data : list Classified) (s : Z) :
  is_label f s ->
  filter (fun r : Classified => bin_label f (FIRST_STATEMENT_DATE r) =? s) data
  = filter (fun r : Classified => in_bucket f s (FIRST_STATEMENT_DATE r)) data.
Proof.
  intros Hs. apply filter_ext. intros r.
  pose proof (in_bucket_label f s (FIRST_STATEMENT_DATE r) Hs) as H.
  destruct (in_bucket f s (FIRST_STATEMENT_DATE r)).
  - apply Z.eqb_eq, H. reflexivity.
  - apply Z.eqb_neq. intros E. apply H in E. discriminate.
Qed.

Lemma no_match (l : list Z) (x : Z) :
  ~ In x l -> filter (fun s => x =? s) l = [].
Proof.
  induction l as [|y l IH]; intros N; [reflexivity|].
  cbn [filter]. destruct (Z.eqb_spec x y) as [E | NE].
  - exfalso. apply N. left. auto.
  - apply IH. intros I. apply N. right. exact I.
Qed.

Lemma single_match (l : list Z) (x : Z) :
  NoDup l -> In x l -> List.length (filter (fun s => x =? s) l) = 1%nat.
Proof.
  induction 1 as [|y l N _ IH]; intros I; [destruct I|].
  cbn [filter]. destruct (Z.eqb_spec x y) as [E | NE].
  - subst y. rewrite (no_match l x N). reflexivity.
  - destruct I as [E | I]; [congruence | exact (IH I)].
Qed.

(** ** Sums over bins *)

Lemma Qsum_map_ext {A : Type} (a b : A -> Q) (l : list A) :
  (forall x, In x l -> (a x == b x)%Q) ->
  (Qsum (map a l) == Qsum (map b l))%Q.
Proof.
  induction l as [|x l IH]; intros H; cbn [map Qsum fold_right].
  - reflexivity.
  - fold (Qsum (map a l)). fold (Qsum (map b l)).
    rewrite (H x (or_introl eq_refl)), IH; [reflexivity|].
    intros y Hy. apply H. right. exact Hy.
Qed.

Lemma Qsum_map_plus {A : Type} (a b : A -> Q) (l : list A) :
  (Qsum (map (fun x => a x + b x) l) == Qsum (map a l) + Qsum (map b l))%Q.
Proof.
  induction l as [|x l IH]; cbn [map Qsum fold_right].
  - reflexivity.
  - fold (Qsum (map (fun x => a x + b x)%Q l)).
    fold (Qsum (map a l)). fold (Qsum (map b l)).
    rewrite IH. ring.
Qed.

Lemma Qsum_map_zero {A : Type} (l : list A) :
  (Qsum (map (fun _ => Qsum []) l) == Qsum [])%Q.
Proof.
  induction l as [|x l IH]; cbn [map]; [reflexivity|].
  change (0 + Qsum (map (fun _ : A => Qsum []) l) == 0)%Q.
  rewrite IH. reflexivity.
Qed.

Lemma Qsum_indicator (l : list Z) (k : Z) (v : Q) :
  NoDup l ->
  (Qsum (map (fun s => if k =? s then v else 0) l)
   == if in_dec Z.eq_dec k l then v else 0)%Q.
Proof.
  induction 1 as [|y l N _ IH]; [reflexivity|].
  cbn [map Qsum fold_right].
  fold (Qsum (map (fun s => if k =? s then v else 0%Q) l)).
  rewrite IH.
  destruct (Z.eqb_spec k y) as [E | NE].
  - subst y. destruct (in_dec Z.eq_dec k l) as [I | _]; [contradiction|].
    destruct (in_dec Z.eq_dec k (k :: l)) as [_ | NI]; [ring|].
    exfalso. apply NI. left. reflexivity.
  - destruct (in_dec Z.eq_dec k l) as [I | NI];
      destruct (in_dec Z.eq_dec k (y :: l)) as [I' | NI']; try ring.
    + exfalso. apply NI'. right. exact I.
    + exfalso. destruct I' as [E | I']; [congruence | contradiction].
Qed.

(** Grouping rows by a key that always falls on one of the distinct [bins]
    loses and repeats nothing. *)
Lemma Qsum_partition (g : Classified -> Q) (key : Classified -> Z)
                     (bins : list Z) (data : list Classified) :
  NoDup bins ->
  (forall r, In r data -> In (key r) bins) ->
  (Qsum (map (fun s => Qsum (map g (filter (fun r => key r =? s) data))) bins)
   == Qsum (map g data))%Q.
Proof.
  intros N. induction data as [|r data IH]; intros Cover.
  - cbn [filter map]. apply Qsum_map_zero.
  - cbn [map Qsum fold_right]. fold (Qsum (map g data)).
    rewrite <- IH by (intros r' Hr'; apply Cover; right; exact Hr').
    transitivity
      (Qsum (map (fun s => (if key r =? s then g r else 0)
                           + Qsum (map g (filter (fun r' => key r' =? s) data)))%Q
                 bins)).
    + apply Qsum_map_ext. intros s _. cbn [filter].
      destruct (key r =? s); cbn [map Qsum fold_right]; [reflexivity | ring].
    + rewrite Qsum_map_plus, (Qsum_indicator _ _ _ N).
      destruct (in_dec Z.eq_dec (key r) bins) as [_ | NI]; [reflexivity|].
      exfalso. apply NI, Cover. left. reflexivity.
Qed.

Lemma Qsum_nonpos (xs : list Q) :
  Forall (fun x => (x <= 0)%Q) xs -> (Qsum xs <= 0)%Q.
Proof.
  induction 1 as [|x xs Hx _ IH]; cbn [Qsum fold_right]; [lra|].
  fold (Qsum xs). lra.
Qed.

(** For amounts that are all zero or negative, the absolute value of the
    sum is the sum of the absolute values. *)
Lemma Qabs_Qsum_nonpos (xs : list Q) :
  Forall (fun x => (x <= 0)%Q) xs ->
  (Qabs (Qsum xs) == Qsum (map Qabs xs))%Q.
Proof.
  intros H. rewrite (Qabs_neg _ (Qsum_nonpos _ H)).
  induction H as [|x xs Hx _ IH]; cbn [map Qsum fold_right]; [reflexivity|].
  fold (Qsum xs). fold (Qsum (map Qabs xs)).
  rewrite <- IH, (Qabs_neg _ Hx). ring.
Qed.

(** ** The time series of the tabs *)

Lemma buckets_render_all (agg_opt : agg) (data : list Classified) :
  buckets (All.over_time (render_all agg_opt data))
  = ts_all (freq_map agg_opt) data.
Proof. destruct data; reflexivity. Qed.

Lemma buckets_render_segment (agg_opt : agg) (data : list Classified) :
  buckets (Seg.over_time (render_segment agg_opt data))
  = ts_segment (freq_map agg_opt) data.
Proof. destruct data; reflexivity. Qed.

Lemma ts_all_dates (f : freq) (data : list Classified) :
  map All.Date (ts_all f data) = time_bins f (dates_of data).
Proof.
  unfold ts_all, resample. rewrite !map_map. cbn [fst All.Date].
  apply map_id.
Qed.

Lemma ts_segment_dates (f : freq) (data : list Classified) :
  map Seg.FIRST_STATEMENT_DATE (ts_segment f data) = time_bins f (dates_of data).
Proof.
  unfold ts_segment, resample. rewrite !map_map.
  cbn [fst Seg.FIRST_STATEMENT_DATE]. apply map_id.
Qed.

(** C7.  Whatever the frame and the interval, the "Advanced" column of the
    time series of [render_all] adds up to the total of [ADVANCE_AMOUNT]
    over the frame, which is also the "Total Advanced" metric. *)
Theorem advance_is_conserved (agg_opt : agg) (data : list Classified) :
  (Qsum (map All.Advanced (buckets (All.over_time (render_all agg_opt data))))
   == Qsum (ADVANCE_col data))%Q /\
  All.total_advanced (All.metrics (render_all agg_opt data))
  = Qsum (ADVANCE_col data).
Proof.
  split; [|reflexivity].
  rewrite buckets_render_all.
  unfold ts_all, resample. rewrite !map_map. cbn [fst snd All.Advanced].
  unfold ADVANCE_col at 1.
  apply (Qsum_partition (fun r : Classified => ADVANCE_AMOUNT r)
           (fun r : Classified => bin_label (freq_map agg_opt)
                                            (FIRST_STATEMENT_DATE r))).
  - apply time_bins_NoDup.
  - intros r Hr. apply time_bins_cover.
    apply (in_map (fun r : Classified => FIRST_STATEMENT_DATE r)), Hr.
Qed.

Lemma ts_all_In (f : freq) (data : list Classified) (b : All.bucket) :
  In b (ts_all f data) ->
  is_label f (All.Date b) /\
  In (All.Date b) (time_bins f (dates_of data)) /\
  b = All.mk_bucket
        (All.Date b)
        (Qsum (ADVANCE_col
                 (filter (fun r : Classified =>
                            in_bucket f (All.Date b) (FIRST_STATEMENT_DATE r))
                         data)))
        (Qabs (Qsum (CHARGEBACK_col
                 (filter (fun r : Classified =>
                            in_bucket f (All.Date b) (FIRST_STATEMENT_DATE r))
                         data)))).
Proof.
  unfold ts_all, resample. rewrite map_map. cbn [fst snd].
  intros H. apply in_map_iff in H. destruct H as (s & <- & Hs).
  cbn [All.Date].
  pose proof (time_bins_labels _ _ _ Hs) as L.
  rewrite (bin_rows f data s L). auto.
Qed.

Lemma ts_segment_In (f : freq) (data : list Classified) (b : Seg.bucket) :
  In b (ts_segment f data) ->
  is_label f (Seg.FIRST_STATEMENT_DATE b) /\
  In (Seg.FIRST_STATEMENT_DATE b) (time_bins f (dates_of data)) /\
  let rows := filter (fun r : Classified =>
                        in_bucket f (Seg.FIRST_STATEMENT_DATE b)
                                  (FIRST_STATEMENT_DATE r)) data in
  b = Seg.mk_bucket (Seg.FIRST_STATEMENT_DATE b)
                    (List.length rows)
                    (Qabs (Qsum (CHARGEBACK_col rows)))
                    (mean (MONTHS_PAID_col rows)).
Proof.
  unfold ts_segment, resample. rewrite map_map. cbn [fst snd].
  intros H. apply in_map_iff in H. destruct H as (s & <- & Hs).
  cbn [Seg.FIRST_STATEMENT_DATE].
  pose proof (time_bins_labels _ _ _ Hs) as L.
  rewrite (bin_rows f data s L). auto.
Qed.

Lemma one_bin_per_day (f : freq) (ax : list Z) (d : Z) :
  In d ax ->
  List.length (filter (fun s => in_bucket f s d) (time_bins f ax)) = 1%nat.
Proof.
  intros H.
  rewrite (filter_ext_in (fun s => in_bucket f s d)
                         (fun s => bin_label f d =? s)).
  - apply single_match; [apply time_bins_NoDup | apply time_bins_cover, H].
  - intros s Hs.
    pose proof (in_bucket_label f s d (time_bins_labels _ _ _ Hs)) as E.
    destruct (in_bucket f s d).
    + symmetry. apply Z.eqb_eq, E. reflexivity.
    + symmetry. apply Z.eqb_neq. intros G. apply E in G. discriminate.
Qed.

Lemma filter_length_map {A B : Type} (p : B -> bool) (g : A -> B) (l : list A) :
  List.length (filter p (map g l))
  = List.length (filter (fun a => p (g a)) l).
Proof.
  induction l as [|a l IH]; [reflexivity|].
  cbn [map filter]. destruct (p (g a)); cbn [List.length]; congruence.
Qed.

Lemma CHARGEBACK_col_nonpos (data : list Classified) (p : Classified -> bool) :
  Forall (fun r : Classified => (CHARGEBACK_AMOUNT r <= 0)%Q) data ->
  Forall (fun x => (x <= 0)%Q) (CHARGEBACK_col (filter p data)).
Proof.
  intros H. unfold CHARGEBACK_col. apply Forall_map.
  rewrite Forall_forall in *. intros r Hr. apply filter_In in Hr.
  apply H, Hr.
Qed.

(** C6.  In a frame whose chargeback amounts are all zero or negative (the
    query sums negative ledger amounts only), every bucket of either time
    series reports the figures of exactly the rows whose first statement
    date lies in its period: [render_all] the sum of the advances and the
    sum of the absolute chargebacks, [render_segment] the number of rows,
    the sum of the absolute chargebacks and the mean of the months paid;
    and every row lies in the period of exactly one bucket. *)
Theorem bucket_metrics (agg_opt : agg) (data : list Classified) :
  Forall (fun r : Classified => (CHARGEBACK_AMOUNT r <= 0)%Q) data ->
  let f := freq_map agg_opt in
  let rows_of s :=
    filter (fun r : Classified => in_bucket f s (FIRST_STATEMENT_DATE r)) data in
  let all := buckets (All.over_time (render_all agg_opt data)) in
  let seg := buckets (Seg.over_time (render_segment agg_opt data)) in
  (forall b, In b all ->
     (All.Advanced b == Qsum (ADVANCE_col (rows_of (All.Date b))))%Q /\
     (All.Chargeback b
      == Qsum (map Qabs (CHARGEBACK_col (rows_of (All.Date b)))))%Q) /\
  (forall b, In b seg ->
     Seg.Count b = List.length (rows_of (Seg.FIRST_STATEMENT_DATE b)) /\
     (Seg.Chargeback b
      == Qsum (map Qabs (CHARGEBACK_col (rows_of (Seg.FIRST_STATEMENT_DATE b)))))%Q /\
     Seg.Avg_Months b
     = mean (MONTHS_PAID_col (rows_of (Seg.FIRST_STATEMENT_DATE b)))) /\
  (forall r : Classified, In r data ->
     List.length (filter (fun b => in_bucket f (All.Date b)
                                             (FIRST_STATEMENT_DATE r)) all)
     = 1%nat /\
     List.length (filter (fun b => in_bucket f (Seg.FIRST_STATEMENT_DATE b)
                                             (FIRST_STATEMENT_DATE r)) seg)
     = 1%nat).
Proof.
  intros Neg. cbv zeta.
  rewrite buckets_render_all, buckets_render_segment.
  split; [|split].
  - intros b Hb. destruct (ts_all_In _ _ _ Hb) as (_ & _ & E).
    destruct b as [d a c]. cbn [All.Date All.Advanced All.Chargeback] in *.
    injection E as -> ->.
    split; [reflexivity|].
    apply Qabs_Qsum_nonpos, CHARGEBACK_col_nonpos, Neg.
  - intros b Hb. destruct (ts_segment_In _ _ _ Hb) as (_ & _ & E).
    destruct b as [d n c m].
    cbn [Seg.FIRST_STATEMENT_DATE Seg.Count Seg.Chargeback Seg.Avg_Months] in *.
    injection E as -> -> ->.
    split; [reflexivity|]. split; [|reflexivity].
    apply Qabs_Qsum_nonpos, CHARGEBACK_col_nonpos, Neg.
  - intros r Hr.
    assert (I : In (FIRST_STATEMENT_DATE r) (dates_of data))
      by (apply (in_map (fun r : Classified => FIRST_STATEMENT_DATE r)), Hr).
    pose proof (one_bin_per_day (freq_map agg_opt) _ _ I) as One.
    split.
    + rewrite <- ts_all_dates, filter_length_map in One. exact One.
    + rewrite <- ts_segment_dates, filter_length_map in One. exact One.
Qed.

Lemma bucket_metrics_witness :
  let f := freq_map Week in
  let rows_of s :=
    filter (fun r : Classified => in_bucket f s (FIRST_STATEMENT_DATE r))
           gap_frame in
  let all := buckets (All.over_time (render_all Week gap_frame)) in
  let seg := buckets (Seg.over_time (render_segment Week gap_frame)) in
  (forall b, In b all ->
     (All.Advanced b == Qsum (ADVANCE_col (rows_of (All.Date b))))%Q /\
     (All.Chargeback b
      == Qsum (map Qabs (CHARGEBACK_col (rows_of (All.Date b)))))%Q) /\
  (forall b, In b seg ->
     Seg.Count b = List.length (rows_of (Seg.FIRST_STATEMENT_DATE b)) /\
     (Seg.Chargeback b
      == Qsum (map Qabs (CHARGEBACK_col (rows_of (Seg.FIRST_STATEMENT_DATE b)))))%Q /\
     Seg.Avg_Months b
     = mean (MONTHS_PAID_col (rows_of (Seg.FIRST_STATEMENT_DATE b)))) /\
  (forall r : Classified, In r gap_frame ->
     List.length (filter (fun b => in_bucket f (All.Date b)
                                             (FIRST_STATEMENT_DATE r)) all)
     = 1%nat /\
     List.length (filter (fun b => in_bucket f (Seg.FIRST_STATEMENT_DATE b)
                                             (FIRST_STATEMENT_DATE r)) seg)
     = 1%nat).
Proof.
  apply (bucket_metrics Week gap_frame).
  repeat constructor; discriminate.
Defined.

(** C2, as the code has it.  For every frame and interval the buckets of
    both time series are sorted by strictly ascending label and carry the
    same labels: one bucket for every period from the period of some row up
    to the period of some row, that is, every period from the earliest row's
    to the latest row's.  A bucket whose period holds no row is kept, with
    count 0, zero sums and no mean. *)
Theorem buckets_span_every_period (agg_opt : agg) (data : list Classified) :
  let f := freq_map agg_opt in
  let all := buckets (All.over_time (render_all agg_opt data)) in
  let seg := buckets (Seg.over_time (render_segment agg_opt data)) in
  StronglySorted Z.lt (map All.Date all) /\
  map Seg.FIRST_STATEMENT_DATE seg = map All.Date all /\
  (forall t, In t (map All.Date all) <->
             is_label f t /\
             exists a b : Classified,
               In a data /\ In b data /\
               bin_label f (FIRST_STATEMENT_DATE a) <= t
               <= bin_label f (FIRST_STATEMENT_DATE b)) /\
  (forall b, In b seg ->
     (Seg.Count b = 0%nat <->
      forall r : Classified,
        In r data ->
        in_bucket f (Seg.FIRST_STATEMENT_DATE b) (FIRST_STATEMENT_DATE r)
        = false)) /\
  (forall b, In b seg ->
     Seg.Count b = 0%nat ->
     Seg.Chargeback b = 0%Q /\ Seg.Avg_Months b = None) /\
  (forall b, In b all ->
     (forall r : Classified,
        In r data ->
        in_bucket f (All.Date b) (FIRST_STATEMENT_DATE r) = false) ->
     All.Advanced b = 0%Q /\ All.Chargeback b = 0%Q).
Proof.
  cbv zeta. rewrite buckets_render_all, buckets_render_segment.
  rewrite ts_all_dates, ts_segment_dates.
  destruct (time_bins_spec (freq_map agg_opt) (dates_of data)) as [Mem Sorted].
  split; [exact Sorted|]. split; [reflexivity|]. split; [|split; [|split]].
  - intros t. rewrite Mem. unfold dates_of. split.
    + intros (Ht & a & b & Ia & Ib & R). split; [exact Ht|].
      apply in_map_iff in Ia. destruct Ia as (ra & <- & Ia).
      apply in_map_iff in Ib. destruct Ib as (rb & <- & Ib).
      exists ra, rb. auto.
    + intros (Ht & a & b & Ia & Ib & R). split; [exact Ht|].
      exists (FIRST_STATEMENT_DATE a), (FIRST_STATEMENT_DATE b).
      split; [|split; [|exact R]];
        apply (in_map (fun r : Classified => FIRST_STATEMENT_DATE r));
        assumption.
  - intros b Hb. destruct (ts_segment_In _ _ _ Hb) as (_ & _ & E).
    destruct b as [d n c m].
    cbn [Seg.FIRST_STATEMENT_DATE Seg.Count] in *.
    injection E as -> _ _. rewrite length_zero_iff_nil. split.
    + intros Nil r Hr.
      destruct (in_bucket (freq_map agg_opt) d (FIRST_STATEMENT_DATE r)) eqn:B;
        [|reflexivity].
      assert (I : In r []); [|destruct I].
      rewrite <- Nil. apply filter_In. auto.
    + intros No.
      destruct (filter _ data) as [|r rows] eqn:F; [reflexivity|].
      assert (I : In r (r :: rows)) by (left; reflexivity).
      rewrite <- F in I. apply filter_In in I. destruct I as [I B].
      rewrite (No r I) in B. discriminate.
  - intros b Hb Zero. destruct (ts_segment_In _ _ _ Hb) as (_ & _ & E).
    destruct b as [d n c m].
    cbn [Seg.FIRST_STATEMENT_DATE Seg.Count Seg.Chargeback Seg.Avg_Months] in *.
    injection E as En -> ->. rewrite Zero in En. symmetry in En.
    apply length_zero_iff_nil in En. rewrite En. split; reflexivity.
  - intros b Hb No. destruct (ts_all_In _ _ _ Hb) as (_ & _ & E).
    destruct b as [d a c]. cbn [All.Date All.Advanced All.Chargeback] in *.
    injection E as -> ->.
    assert (Nil : filter (fun r : Classified =>
                            in_bucket (freq_map agg_opt) d
                                      (FIRST_STATEMENT_DATE r)) data = []).
    { destruct (filter _ data) as [|r rows] eqn:F; [reflexivity|].
      assert (I : In r (r :: rows)) by (left; reflexivity).
      rewrite <- F in I. apply filter_In in I. destruct I as [I B].
      rewrite (No r I) in B. discriminate. }
    rewrite Nil. split; reflexivity.
Qed.

(** C2, refuted as stated: by day, two policies first stated on 2024-01-01
    and 2024-01-03 (the whole In-Policy segment of their frame) give three
    buckets; the one of 2024-01-02 holds no row and is reported with zero
    count and zero sums. *)
Lemma empty_period_gets_a_bucket :
  classify_all gap_policies = Ok gap_frame /\
  df_ip gap_frame = gap_frame /\
  map Seg.FIRST_STATEMENT_DATE
      (buckets (Seg.over_time (render_segment Day gap_frame)))
  = [19723; 19724; 19725] /\
  map Seg.Count (buckets (Seg.over_time (render_segment Day gap_frame)))
  = [1; 0; 1]%nat /\
  map All.Date (buckets (All.over_time (render_all Day gap_frame)))
  = [19723; 19724; 19725] /\
  map All.Advanced (buckets (All.over_time (render_all Day gap_frame)))
  = [100; 0; 200]%Q.
Proof.
  repeat split; reflexivity.
Qed.

(** ** Signs of the loaded amounts *)

Lemma fold_Qplus_nonneg (xs : list Q) :
  Forall (fun x => (0 <= x)%Q) xs -> (0 <= fold_right Qplus 0 xs)%Q.
Proof.
  induction 1 as [|x xs Hx _ IH]; cbn [fold_right]; lra.
Qed.

Lemma fold_Qplus_nonpos (xs : list Q) :
  Forall (fun x => (x <= 0)%Q) xs -> (fold_right Qplus 0 xs <= 0)%Q.
Proof.
  induction 1 as [|x xs Hx _ IH]; cbn [fold_right]; lra.
Qed.

Lemma coalesce_group_sum (P : Q -> Prop) (rows : list (Z * Q)) (k : Z) :
  P 0%Q ->
  (forall xs, Forall P xs -> P (fold_right Qplus 0%Q xs)) ->
  Forall (fun r => P (snd r)) rows ->
  P (Ledger.coalesce_amount k (Ledger.group_sum rows)).
Proof.
  intros P0 Psum Hrows. unfold Ledger.coalesce_amount.
  destruct (find _ (Ledger.group_sum rows)) as [r|] eqn:F; [|exact P0].
  apply find_some in F. destruct F as [I _].
  unfold Ledger.group_sum in I. apply in_map_iff in I.
  destruct I as (k' & <- & _). cbn [snd].
  apply Psum, Forall_map.
  rewrite Forall_forall in *. intros r Hr. apply filter_In in Hr.
  apply Hrows, Hr.
Qed.

(** The query never returns a negative advance or a positive chargeback. *)
Lemma load_data_signs (to_varchar : Z -> string)
                      (acp : list Ledger.commission)
                      (policies : list Ledger.policy) (r : Raw.row) :
  In r (Ledger.load_data to_varchar acp policies) ->
  (0 <= Raw.ADVANCE_AMOUNT r)%Q /\ (Raw.CHARGEBACK_AMOUNT r <= 0)%Q.
Proof.
  unfold Ledger.load_data. cbv zeta. intros H.
  apply in_map_iff in H. destruct H as (s & <- & _).
  cbn [Raw.ADVANCE_AMOUNT Raw.CHARGEBACK_AMOUNT]. split.
  - unfold Ledger.advance.
    apply (coalesce_group_sum (fun x => (0 <= x)%Q));
      [lra | exact fold_Qplus_nonneg |].
    apply Forall_map, Forall_forall. intros x Hx.
    apply filter_In in Hx. destruct Hx as [_ Hx].
    apply Qltb_lt in Hx. cbn [Ledger.amount_of snd]. lra.
  - unfold Ledger.chargebacks.
    apply (coalesce_group_sum (fun x => (x <= 0)%Q));
      [lra | exact fold_Qplus_nonpos |].
    apply Forall_map, Forall_forall. intros x Hx.
    apply filter_In in Hx. destruct Hx as [_ Hx].
    apply Qltb_lt in Hx. cbn [Ledger.amount_of snd]. lra.
Qed.

Lemma classify_all_rows (df : list Summary) (cs : list Classified)
                        (c : Classified) :
  classify_all df = Ok cs -> In c cs -> In (summary c) df.
Proof.
  intros E.
  destruct (classify_all_total df) as (cs' & E' & F).
  rewrite E in E'. injection E' as <-. clear E.
  induction F as [|r c' df cs Hc _ IH]; intros I; [destruct I|].
  destruct I as [<- | I].
  - left. symmetry. apply (classify_inv _ _ Hc).
  - right. apply IH, I.
Qed.

(** Every frame the tabs receive from a loaded ledger has chargeback amounts
    that are zero or negative: cleaning and classification keep the amounts,
    the date filter and the segments only select rows. *)
Lemma loaded_chargebacks_nonpos (to_varchar : Z -> string)
                                (parse : string -> option Z)
                                (acp : list Ledger.commission)
                                (policies : list Ledger.policy)
                                (cs : list Classified) :
  classify_all (snd (clean parse (Ledger.load_data to_varchar acp policies)))
  = Ok cs ->
  forall date_start date_end,
    let df := date_filter date_start date_end cs in
    Forall (fun r : Classified => (CHARGEBACK_AMOUNT r <= 0)%Q) df /\
    Forall (fun r : Classified => (CHARGEBACK_AMOUNT r <= 0)%Q) (df_ip df) /\
    Forall (fun r : Classified => (CHARGEBACK_AMOUNT r <= 0)%Q) (df_nip df).
Proof.
  intros E date_start date_end. cbv zeta.
  assert (A : forall c, In c cs -> (CHARGEBACK_AMOUNT c <= 0)%Q).
  { intros c Hc. pose proof (classify_all_rows _ _ _ E Hc) as I.
    unfold clean in I. cbn [snd] in I. apply dropna_In in I.
    destruct I as (r & Ir & _ & ->). cbn [CHARGEBACK_AMOUNT].
    apply (load_data_signs _ _ _ _ Ir). }
  unfold df_ip, df_nip, date_filter.
  repeat split; apply Forall_forall; intros c Hc;
    repeat (apply filter_In in Hc; destruct Hc as [Hc _]); apply A, Hc.
Qed.

(** The scenarios of the specification, through the query and the
    classifier: A (+1200 on 2024-03-01, -600 on 2024-04-01), B (+1000 and no
    chargeback) and C (+1200 and -1200 on the same first statement). *)
Example scenarios_ABC :
  let acp := [ Ledger.mk_commission 1 19783 1200;
               Ledger.mk_commission 1 19814 (-600);
               Ledger.mk_commission 2 19732 1000;
               Ledger.mk_commission 3 19754 1200;
               Ledger.mk_commission 3 19754 (-1200) ] in
  let policies := [ Ledger.mk_policy 1 "X"; Ledger.mk_policy 2 "Y";
                    Ledger.mk_policy 3 "Z" ]%string in
  let loaded := Ledger.load_data (fun _ => "2024-03-01"%string) acp policies in
  map Raw.POLICY_ID loaded = [1; 2; 3] /\
  map Raw.ADVANCE_AMOUNT loaded = [1200; 1000; 1200]%Q /\
  map Raw.CHARGEBACK_AMOUNT loaded = [-600; 0; -1200]%Q /\
  match classify_all (snd (clean (fun _ => Some 19783) loaded)) with
  | Ok cs => map MONTHS_PAID cs = [6; 12; 0] /\
             map STATUS cs = [Charged_Back; Active; Charged_Back] /\
             map (fun c : Classified => POLICY_ID c) (df_ip cs) = [3]
  | Raise _ => False
  end.
Proof.
  cbv zeta. vm_compute. repeat split; reflexivity.
Qed.

(** Scenario D: two policies first stated in March 2024 with advances 100
    and 200 give one month bucket, labelled 2024-03-01, with sum 300 and
    count 2. *)
Example scenario_D :
  let data := [ mkClassified (policy 7 19785 100 (-100)) (100 # 100) 0 Charged_Back;
                mkClassified (policy 8 19810 200 (-200)) (200 # 200) 0 Charged_Back ] in
  map (fun b => (All.Date b, All.Advanced b))
      (buckets (All.over_time (render_all Month data)))
  = [(19783, 300%Q)] /\
  map (fun b => (Seg.FIRST_STATEMENT_DATE b, Seg.Count b))
      (buckets (Seg.over_time (render_segment Month data)))
  = [(19783, 2%nat)].
Proof.
  split; reflexivity.
Qed.

(** Weeks end on Sunday: Monday 2024-01-01 and Sunday 2024-01-07 share the
    bucket labelled 2024-01-07; Monday 2024-01-08 opens the next one. *)
Example week_labels :
  map (bin_label W) [19723; 19729; 19730] = [19729; 19729; 19736].
Proof. reflexivity. Qed.

(** Leap years: 2024-02-29 and 2000-02-29 exist, 1900-02-29 does not. *)
Example month_labels :
  map day_of_month [19782; 19783; 11016; 11017; -25509; -25508]
  = [29; 1; 29; 1; 28; 1].
Proof. reflexivity. Qed.

(** ** More on the classifier *)

Lemma round_mono (x y : Q) : (x <= y)%Q -> Py.round x <= Py.round y.
Proof.
  intros H.
  pose proof (Qfloor_resp_le _ _ H) as F.
  destruct (floor_bounds x) as [Xl Xh], (floor_bounds y) as [Yl Yh].
  destruct (round_cases x) as [[Cx Ex] | [[Cx Ex] | [Cx Ex]]];
    destruct (round_cases y) as [[Cy Ey] | [[Cy Ey] | [Cy Ey]]];
    rewrite Ex, Ey; clear Ex Ey;
    destruct (Z.eq_dec (Qfloor x) (Qfloor y)) as [E | N];
    try rewrite E in *;
    repeat match goal with
           | |- context [Z.even ?a] => destruct (Z.even a)
           end;
    try lia; exfalso; lra.
Qed.

Lemma round_is_zero (x : Q) : (0 <= x)%Q -> (Py.round x = 0 <-> (x <= 1 # 2)%Q).
Proof.
  intros Hx. destruct (floor_bounds x) as [Fl Fh].
  assert (F0 : 0 <= Qfloor x).
  { apply Z.lt_succ_r. unfold Z.succ. Z_of_Q.
    change (inject_Z 0) with 0%Q. lra. }
  split.
  - intros R. apply Qnot_lt_le. intros Hgt.
    destruct (round_cases x) as [[C E] | [[C E] | [C E]]]; rewrite E in R.
    + rewrite R in C. change (inject_Z 0) with 0%Q in C. lra.
    + lia.
    + destruct (Z.even (Qfloor x)); [|lia].
      rewrite R in C. change (inject_Z 0) with 0%Q in C. lra.
  - intros Hle.
    assert (F : Qfloor x = 0).
    { apply Z.le_antisymm; [|exact F0].
      apply Z.lt_succ_r. unfold Z.succ. Z_of_Q.
      change (inject_Z 0) with 0%Q. lra. }
    destruct (round_cases x) as [[C E] | [[C E] | [C E]]]; rewrite E, ?F.
    + reflexivity.
    + rewrite F in C. change (inject_Z 0) with 0%Q in C. lra.
    + reflexivity.
Qed.

Lemma spec_fraction_at_least (r : Summary) (t : Q) :
  (0 < t <= 1)%Q ->
  (t <= spec_cb_fraction r)%Q <->
  (0 < ADVANCE_AMOUNT r)%Q /\
  (t * ADVANCE_AMOUNT r <= Qabs (CHARGEBACK_AMOUNT r))%Q.
Proof.
  intros Ht. unfold spec_cb_fraction.
  destruct (Qle_bool (ADVANCE_AMOUNT r) 0) eqn:E.
  - apply Qle_bool_iff in E. split; intros H; lra.
  - assert (A : (0 < ADVANCE_AMOUNT r)%Q).
    { apply Qnot_le_lt. intros H. apply Qle_bool_iff in H. congruence. }
    set (q := (Qabs (CHARGEBACK_AMOUNT r) / ADVANCE_AMOUNT r)%Q).
    assert (Q1 : (t <= Qmin q 1 <-> t <= q)%Q).
    { destruct (Q.min_spec q 1) as [[L M] | [L M]]; rewrite M; split; lra. }
    rewrite Q1. unfold q. split.
    + intros H. split; [exact A|].
      apply (Qmult_le_r _ _ _ A) in H.
      assert (E' : (Qabs (CHARGEBACK_AMOUNT r) / ADVANCE_AMOUNT r
                    * ADVANCE_AMOUNT r == Qabs (CHARGEBACK_AMOUNT r))%Q).
      { field. lra. }
      rewrite E' in H. exact H.
    + intros [_ H]. apply Qle_shift_div_l; assumption.
Qed.


(** X2.  Of two policies with the same advance, the one with the larger
    absolute chargeback never has more months paid. *)
Theorem months_paid_antitone (r1 r2 : Summary) (c1 c2 : Classified) :
  classify r1 = Ok c1 ->
  classify r2 = Ok c2 ->
  (ADVANCE_AMOUNT r1 == ADVANCE_AMOUNT r2)%Q ->
  (Qabs (CHARGEBACK_AMOUNT r1) <= Qabs (CHARGEBACK_AMOUNT r2))%Q ->
  MONTHS_PAID c2 <= MONTHS_PAID c1.
Proof.
  intros H1 H2 Ea Hc.
  destruct (classify_inv _ _ H1) as (_ & _ & M1 & _).
  destruct (classify_inv _ _ H2) as (_ & _ & M2 & _).
  destruct (fraction_of_classified _ _ H1) as (S1 & _).
  destruct (fraction_of_classified _ _ H2) as (S2 & _).
  rewrite M1, M2. unfold MONTHS_PAID_of. apply round_mono.
  assert (G : (CB_FRACTION c1 <= CB_FRACTION c2)%Q); [|lra].
  rewrite S1, S2. unfold spec_cb_fraction.
  destruct (Qle_bool (ADVANCE_AMOUNT r1) 0) eqn:E1;
    destruct (Qle_bool (ADVANCE_AMOUNT r2) 0) eqn:E2.
  - lra.
  - exfalso. apply Qle_bool_iff in E1. rewrite Ea in E1.
    apply Qle_bool_iff in E1. congruence.
  - exfalso. apply Qle_bool_iff in E2. rewrite <- Ea in E2.
    apply Qle_bool_iff in E2. congruence.
  - assert (A : (0 < ADVANCE_AMOUNT r1)%Q).
    { apply Qnot_le_lt. intros H. apply Qle_bool_iff in H. congruence. }
    apply Q.min_le_compat_r. rewrite <- Ea.
    apply Qmult_le_compat_r; [exact Hc|].
    apply Qlt_le_weak, Qinv_lt_0_compat, A.
Qed.

Lemma months_paid_antitone_witness :
  MONTHS_PAID full_classified <= MONTHS_PAID half_classified.
Proof.
  apply (months_paid_antitone half_policy full_policy);
    reflexivity || discriminate.
Defined.

(** ** The tabs of one frame *)

Lemma classified_rows (df : list Summary) (cs : list Classified) (c : Classified) :
  classify_all df = Ok cs -> In c cs -> classify (summary c) = Ok c.
Proof.
  intros E.
  destruct (classify_all_total df) as (cs' & E' & F).
  rewrite E in E'. injection E' as <-. clear E.
  induction F as [|r c' df cs Hc _ IH]; intros I; [destruct I|].
  destruct I as [<- | I]; [|exact (IH I)].
  destruct (classify_inv _ _ Hc) as (-> & _). exact Hc.
Qed.

Lemma classified_rows_well (df : list Summary) (cs : list Classified) :
  classify_all df = Ok cs -> Forall well_classified cs.
Proof.
  intros E. apply Forall_forall. intros c Hc.
  pose proof (classified_rows _ _ _ E Hc) as H.
  destruct (classify_inv _ _ H) as (_ & _ & M & S).
  destruct (fraction_of_classified _ _ H) as (_ & B).
  split.
  - rewrite M. apply round_between.
    + change (inject_Z 0) with 0%Q. lra.
    + change (inject_Z 12) with 12%Q. lra.
  - intros A. apply STATUS_of_Active. congruence.
Qed.

Lemma Forall_filter_sub {A : Type} (P : A -> Prop) (p : A -> bool) (l : list A) :
  Forall P l -> Forall P (filter p l).
Proof.
  rewrite !Forall_forall. intros H x Hx. apply filter_In in Hx. apply H, Hx.
Qed.

Lemma Qsum_cons (x : Q) (xs : list Q) : Qsum (x :: xs) = (x + Qsum xs)%Q.
Proof. reflexivity. Qed.

Lemma segments_split (d : list Classified) :
  Forall well_classified d ->
  List.length d
  = (count_status Active d + List.length (df_ip d) + List.length (df_nip d))%nat /\
  count_status Charged_Back d
  = (List.length (df_ip d) + List.length (df_nip d))%nat /\
  (Qsum (CHARGEBACK_col d)
   == Qsum (CHARGEBACK_col (df_ip d)) + Qsum (CHARGEBACK_col (df_nip d)))%Q.
Proof.
  unfold count_status, df_ip, df_nip, CHARGEBACK_col.
  induction 1 as [|c d [M A] _ (IH1 & IH2 & IH3)].
  - repeat split; reflexivity.
  - cbn [filter map List.length].
    destruct (STATUS c) eqn:S; cbn [Status_eqb andb].
    + specialize (A eq_refl). cbn [List.length map].
      split; [lia|]. split; [lia|].
      rewrite Qsum_cons, A, IH3. ring.
    + destruct (Z.eqb_spec (MONTHS_PAID c) 0) as [E | N];
        destruct (Z.ltb_spec 0 (MONTHS_PAID c)) as [L | G]; try lia;
        cbn [List.length map];
        (split; [lia|]; split; [lia|]);
        rewrite !Qsum_cons, IH3; ring.
Qed.

(** X3.  In every frame the script can hand to the tabs (classified rows,
    any date range) the two segments are disjoint and together hold exactly
    the charged-back policies: the totals of the All tab are the active
    count plus the totals of the two segment tabs, and its "Total
    Chargebacks" is the sum of theirs. *)
Theorem tabs_add_up (df : list Summary) (cs : list Classified)
                    (date_start date_end : Z) (agg_opt : agg) :
  classify_all df = Ok cs ->
  let d := date_filter date_start date_end cs in
  let all := All.metrics (render_all agg_opt d) in
  let ip := Seg.metrics (render_segment agg_opt (df_ip d)) in
  let nip := Seg.metrics (render_segment agg_opt (df_nip d)) in
  All.total all = (All.active_n all + Seg.total ip + Seg.total nip)%nat /\
  All.cb_n all = (Seg.total ip + Seg.total nip)%nat /\
  (All.total_cb all == Seg.total_cb ip + Seg.total_cb nip)%Q /\
  (forall c, ~ (In c (df_ip d) /\ In c (df_nip d))).
Proof.
  intros E. cbv zeta.
  pose proof (classified_rows_well _ _ E) as W.
  apply (Forall_filter_sub _
           (fun r : Classified =>
              (date_start <=? FIRST_STATEMENT_DATE r)
              && (FIRST_STATEMENT_DATE r <=? date_end))) in W.
  fold (date_filter date_start date_end cs) in W.
  destruct (segments_split _ W) as (T & C & S).
  cbn [render_all render_segment All.metrics Seg.metrics All.total
       All.active_n All.cb_n All.total_cb Seg.total Seg.total_cb].
  repeat split; try assumption.
  intros c [I1 I2]. unfold df_ip, df_nip in *.
  apply filter_In in I1, I2. destruct I1 as [_ I1], I2 as [_ I2].
  apply andb_true_iff in I1, I2. lia.
Qed.

Lemma tabs_add_up_witness :
  let d := date_filter 19723 19725 gap_frame in
  let all := All.metrics (render_all Day d) in
  let ip := Seg.metrics (render_segment Day (df_ip d)) in
  let nip := Seg.metrics (render_segment Day (df_nip d)) in
  All.total all = (All.active_n all + Seg.total ip + Seg.total nip)%nat /\
  All.cb_n all = (Seg.total ip + Seg.total nip)%nat /\
  (All.total_cb all == Seg.total_cb ip + Seg.total_cb nip)%Q /\
  (forall c, ~ (In c (df_ip d) /\ In c (df_nip d))).
Proof.
  apply (tabs_add_up gap_policies gap_frame 19723 19725 Day).
  reflexivity.
Defined.

(** ** The sidebar and the date filter *)

Lemma filter_all {A : Type} (p : A -> bool) (l : list A) :
  (forall x, In x l -> p x = true) -> filter p l = l.
Proof.
  induction l as [|x l IH]; intros H; [reflexivity|].
  cbn [filter]. rewrite (H x (or_introl eq_refl)). f_equal.
  apply IH. intros y Hy. apply H. right. exact Hy.
Qed.

(** X4.  For a frame with at least one row the sidebar widget is given the
    earliest and the latest first-statement date as bounds, and the range
    from 2024-01-01 (or the earliest date, if later) to the latest date as
    default.  The default start lies inside the bounds exactly when some
    policy is dated 2024-01-01 or later; filtering by the default range keeps
    exactly the policies dated 2024-01-01 or later, and filtering by the
    full range of the bounds keeps every policy. *)
Theorem sidebar_defaults (r : Classified) (df : list Classified) :
  exists a, sidebar_args (r :: df) = Ok a /\
    (forall c : Classified,
        In c (r :: df) ->
        min_value a <= FIRST_STATEMENT_DATE c <= max_value a) /\
    (exists c : Classified,
        In c (r :: df) /\ FIRST_STATEMENT_DATE c = min_value a) /\
    (exists c : Classified,
        In c (r :: df) /\ FIRST_STATEMENT_DATE c = max_value a) /\
    value a = (Z.max (min_value a) date_2024_01_01, max_value a) /\
    (fst (value a) <= max_value a <-> date_2024_01_01 <= max_value a) /\
    date_filter (fst (value a)) (snd (value a)) (r :: df)
    = filter (fun c : Classified => date_2024_01_01 <=? FIRST_STATEMENT_DATE c)
             (r :: df) /\
    date_filter (min_value a) (max_value a) (r :: df) = r :: df.
Proof.
  unfold sidebar_args.
  set (frame := r :: df).
  set (col := map (fun r : Classified => FIRST_STATEMENT_DATE r) frame).
  pose proof (series_min_In col) as Hmin.
  pose proof (series_max_In col) as Hmax.
  destruct (series_min col) as [|lo]; [discriminate|].
  destruct (series_max col) as [|hi]; [discriminate|].
  destruct Hmin as [Ilo Llo], Hmax as [Ihi Lhi].
  cbn [default_start_of bind]. eexists. split; [reflexivity|].
  cbn [min_value max_value value fst snd].
  assert (B : forall c : Classified,
             In c frame -> lo <= FIRST_STATEMENT_DATE c <= hi).
  { intros c Hc.
    assert (I : In (FIRST_STATEMENT_DATE c) col)
      by (apply (in_map (fun r : Classified => FIRST_STATEMENT_DATE r)), Hc).
    split; [apply Llo | apply Lhi]; exact I. }
  assert (M : Py.max lo date_2024_01_01 = Z.max lo date_2024_01_01).
  { unfold Py.max. destruct (Z.ltb_spec lo date_2024_01_01); lia. }
  split; [exact B|].
  split.
  { apply in_map_iff in Ilo. destruct Ilo as (c & E & I). eauto. }
  split.
  { apply in_map_iff in Ihi. destruct Ihi as (c & E & I). eauto. }
  split; [rewrite M; reflexivity|].
  assert (LH : lo <= hi) by (specialize (Llo hi Ihi); lia).
  split; [rewrite M; lia|].
  split.
  - unfold date_filter. apply filter_ext_in. intros c Hc.
    specialize (B c Hc). rewrite M.
    destruct (Z.leb_spec (Z.max lo date_2024_01_01) (FIRST_STATEMENT_DATE c));
      destruct (Z.leb_spec (FIRST_STATEMENT_DATE c) hi);
      destruct (Z.leb_spec date_2024_01_01 (FIRST_STATEMENT_DATE c));
      cbn [andb]; try reflexivity; lia.
  - unfold date_filter. apply filter_all. intros c Hc.
    specialize (B c Hc). apply andb_true_iff. rewrite !Z.leb_le. exact B.
Qed.

(** X5.  Cleaning keeps the surviving rows in the order in which they were
    loaded, each once per loaded occurrence and with its identifier, number
    and amounts unchanged; the warning is absent exactly when no row was
    dropped. *)
Theorem clean_keeps_order (parse : string -> option Z) (loaded : list Raw.row) :
  let good r := negb (isna (to_datetime parse (Raw.FIRST_STATEMENT_DATE r))) in
  map (fun s => (POLICY_ID s, POLICY_NUMBER s, ADVANCE_AMOUNT s,
                 CHARGEBACK_AMOUNT s))
      (snd (clean parse loaded))
  = map (fun r => (Raw.POLICY_ID r, Raw.POLICY_NUMBER r, Raw.ADVANCE_AMOUNT r,
                   Raw.CHARGEBACK_AMOUNT r))
        (filter good loaded) /\
  map (fun s => At (FIRST_STATEMENT_DATE s)) (snd (clean parse loaded))
  = map (fun r => to_datetime parse (Raw.FIRST_STATEMENT_DATE r))
        (filter good loaded) /\
  (fst (clean parse loaded) = [] <->
   List.length (snd (clean parse loaded)) = List.length loaded).
Proof.
  cbv zeta. unfold clean. cbn [fst snd].
  split; [|split].
  - induction loaded as [|r l IH]; [reflexivity|].
    cbn [parsed map dropna filter]. fold (parsed parse l).
    destruct (to_datetime parse (Raw.FIRST_STATEMENT_DATE r));
      cbn [isna negb map]; [exact IH | f_equal; exact IH].
  - induction loaded as [|r l IH]; [reflexivity|].
    cbn [parsed map dropna filter]. fold (parsed parse l).
    destruct (to_datetime parse (Raw.FIRST_STATEMENT_DATE r)) eqn:E;
      cbn [isna negb map]; [exact IH | rewrite E; f_equal; exact IH].
  - pose proof (dropna_length parse loaded) as L.
    destruct (Nat.eqb_spec (bad_count (parsed parse loaded)) 0) as [E | N].
    + split; [intros _; lia | reflexivity].
    + split; [discriminate | intros H; lia].
Qed.

(** ** Averages and column totals of the segment tabs *)

Lemma Zsum_between (xs : list Z) (lo hi : Z) :
  Forall (fun x => lo <= x <= hi) xs ->
  lo * Z.of_nat (List.length xs) <= Zsum xs <= hi * Z.of_nat (List.length xs).
Proof.
  induction 1 as [|x xs Hx _ IH].
  - cbn. lia.
  - cbn [List.length Zsum fold_right]. fold (Zsum xs).
    rewrite Nat2Z.inj_succ, !Z.mul_succ_r. lia.
Qed.

Lemma mean_between (xs : list Z) (lo hi : Z) :
  xs <> [] ->
  Forall (fun x => lo <= x <= hi) xs ->
  exists q, mean xs = Some q /\ (inject_Z lo <= q <= inject_Z hi)%Q.
Proof.
  intros NE H. pose proof (Zsum_between _ _ _ H) as [L U].
  destruct xs as [|x xs]; [congruence|].
  unfold mean. eexists. split; [reflexivity|].
  set (n := Z.of_nat (List.length (x :: xs))) in *.
  assert (N : (0 < inject_Z n)%Q).
  { change 0%Q with (inject_Z 0). rewrite <- Zlt_Qlt. unfold n.
    cbn [List.length]. lia. }
  split.
  - apply Qle_shift_div_l; [exact N|].
    rewrite <- inject_Z_mult, <- Zle_Qle. exact L.
  - apply Qle_shift_div_r; [exact N|].
    rewrite <- inject_Z_mult, <- Zle_Qle. exact U.
Qed.

(** X6.  On a classified frame the "Avg Months Paid" figure computed for
    the In-Policy tab is always 0, and the one of the Non-IP tab lies
    between 1 and 12 as soon as the tab holds a policy (it is 0 for an empty
    tab). *)
Theorem segment_average_months (df : list Summary) (cs : list Classified)
                               (date_start date_end : Z) (agg_opt : agg) :
  classify_all df = Ok cs ->
  let d := date_filter date_start date_end cs in
  (exists q, Seg.avg_months (Seg.metrics (render_segment agg_opt (df_ip d)))
             = Some q /\ (q == 0)%Q) /\
  (exists q, Seg.avg_months (Seg.metrics (render_segment agg_opt (df_nip d)))
             = Some q /\
             if Nat.eqb (List.length (df_nip d)) 0
             then (q == 0)%Q
             else (1 <= q <= 12)%Q).
Proof.
  intros E. cbv zeta.
  pose proof (classified_rows_well _ _ E) as W.
  set (d := date_filter date_start date_end cs).
  assert (Wd : Forall well_classified d) by (apply Forall_filter_sub, W).
  cbn [render_segment Seg.metrics Seg.avg_months]. split.
  - destruct (df_ip d) as [|c l] eqn:Ed.
    { cbn. exists 0%Q. split; reflexivity. }
    rewrite <- Ed.
    assert (P : (0 <? List.length (df_ip d))%nat = true)
      by (rewrite Ed; reflexivity).
    rewrite P.
    destruct (mean_between (MONTHS_PAID_col (df_ip d)) 0 0) as (q & Hq & B).
    + rewrite Ed. discriminate.
    + unfold MONTHS_PAID_col. apply Forall_map, Forall_forall.
      intros c' Hc'. unfold df_ip in Hc'. apply filter_In in Hc'.
      destruct Hc' as [_ Hc']. apply andb_true_iff in Hc'. lia.
    + exists q. split; [exact Hq|].
      change (inject_Z 0) with 0%Q in B. lra.
  - destruct (df_nip d) as [|c l] eqn:Ed.
    { cbn. exists 0%Q. split; reflexivity. }
    rewrite <- Ed.
    assert (P : (0 <? List.length (df_nip d))%nat = true)
      by (rewrite Ed; reflexivity).
    rewrite P.
    destruct (mean_between (MONTHS_PAID_col (df_nip d)) 1 12) as (q & Hq & B).
    + rewrite Ed. discriminate.
    + unfold MONTHS_PAID_col. apply Forall_map, Forall_forall.
      intros c' Hc'. unfold df_nip in Hc'. apply filter_In in Hc'.
      destruct Hc' as [I Hc']. apply andb_true_iff in Hc'.
      rewrite Forall_forall in Wd. destruct (Wd c' I) as [M _]. lia.
    + exists q. split; [exact Hq|].
      rewrite Ed. cbn [List.length Nat.eqb]. exact B.
Qed.

Lemma segment_average_months_witness :
  let d := date_filter 19000 20000 [half_classified; full_classified] in
  (exists q, Seg.avg_months (Seg.metrics (render_segment Month (df_ip d)))
             = Some q /\ (q == 0)%Q) /\
  (exists q, Seg.avg_months (Seg.metrics (render_segment Month (df_nip d)))
             = Some q /\
             if Nat.eqb (List.length (df_nip d)) 0
             then (q == 0)%Q
             else (1 <= q <= 12)%Q).
Proof.
  apply (segment_average_months [half_policy; full_policy]
                                [half_classified; full_classified]
                                19000 20000 Month).
  reflexivity.
Defined.

Lemma list_sum_head (x : nat) (l : list nat) :
  list_sum (x :: l) = (x + list_sum l)%nat.
Proof. reflexivity. Qed.

Lemma list_sum_map_plus {A : Type} (a b : A -> nat) (l : list A) :
  list_sum (map (fun x => (a x + b x)%nat) l)
  = (list_sum (map a l) + list_sum (map b l))%nat.
Proof.
  induction l as [|x l IH]; [reflexivity|].
  cbn [map]. rewrite !list_sum_head, IH. lia.
Qed.

Lemma list_sum_no_match (l : list Z) (k : Z) :
  ~ In k l ->
  list_sum (map (fun s => if k =? s then 1%nat else 0%nat) l) = 0%nat.
Proof.
  induction l as [|z l IH]; intros N; [reflexivity|].
  cbn [map]. rewrite list_sum_head.
  destruct (Z.eqb_spec k z) as [-> | _].
  - exfalso. apply N. left. reflexivity.
  - apply IH. intros H. apply N. right. exact H.
Qed.

Lemma list_sum_indicator (l : list Z) (k : Z) :
  NoDup l -> In k l ->
  list_sum (map (fun s => if k =? s then 1%nat else 0%nat) l) = 1%nat.
Proof.
  induction 1 as [|y l N _ IH]; intros I; [destruct I|].
  cbn [map]. rewrite list_sum_head.
  destruct (Z.eqb_spec k y) as [E | NE].
  - subst y. rewrite (list_sum_no_match l k N). reflexivity.
  - destruct I as [E | I]; [congruence|]. rewrite (IH I). reflexivity.
Qed.

Lemma length_partition {A : Type} (key : A -> Z) (bins : list Z) (data : list A) :
  NoDup bins ->
  (forall r, In r data -> In (key r) bins) ->
  list_sum (map (fun s => List.length (filter (fun r => key r =? s) data)) bins)
  = List.length data.
Proof.
  intros N. induction data as [|r data IH]; intros Cover.
  - cbn [filter List.length]. clear. induction bins as [|s bins IHb];
      [reflexivity|]. cbn [map]. rewrite list_sum_head. exact IHb.
  - cbn [List.length].
    rewrite <- IH by (intros r' Hr'; apply Cover; right; exact Hr').
    change (S ?n) with (1 + n)%nat.
    rewrite <- (list_sum_indicator bins (key r) N)
      by (apply Cover; left; reflexivity).
    rewrite <- list_sum_map_plus. f_equal. apply map_ext. intros s.
    cbn [filter]. destruct (key r =? s); reflexivity.
Qed.

(** X7.  In the time series of a segment tab the "Count" column adds up to
    the tab's "Total Policies", for every frame and interval: the buckets
    count every policy once. *)
Theorem counts_add_up (agg_opt : agg) (data : list Classified) :
  list_sum (map Seg.Count
                (buckets (Seg.over_time (render_segment agg_opt data))))
  = Seg.total (Seg.metrics (render_segment agg_opt data)).
Proof.
  rewrite buckets_render_segment.
  cbn [render_segment Seg.metrics Seg.total].
  unfold ts_segment, resample. rewrite !map_map. cbn [fst snd Seg.Count].
  apply (length_partition
           (fun r : Classified => bin_label (freq_map agg_opt)
                                            (FIRST_STATEMENT_DATE r))).
  - apply time_bins_NoDup.
  - intros r Hr. apply time_bins_cover.
    apply (in_map (fun r : Classified => FIRST_STATEMENT_DATE r)), Hr.
Qed.

(** X8.  For a frame whose chargeback amounts are all zero or negative, the
    "Chargeback" column of either time series adds up to the absolute value
    of the tab's "Total Chargebacks". *)
Theorem chargebacks_add_up (agg_opt : agg) (data : list Classified) :
  Forall (fun r : Classified => (CHARGEBACK_AMOUNT r <= 0)%Q) data ->
  (Qsum (map Seg.Chargeback
             (buckets (Seg.over_time (render_segment agg_opt data))))
   == Qabs (Seg.total_cb (Seg.metrics (render_segment agg_opt data))))%Q /\
  (Qsum (map All.Chargeback
             (buckets (All.over_time (render_all agg_opt data))))
   == Qabs (All.total_cb (All.metrics (render_all agg_opt data))))%Q.
Proof.
  intros Neg.
  rewrite buckets_render_segment, buckets_render_all.
  cbn [render_segment render_all Seg.metrics All.metrics
       Seg.total_cb All.total_cb].
  assert (G : (Qsum
                 (map (fun s =>
                         Qabs (Qsum (CHARGEBACK_col
                                       (filter
                                          (fun r : Classified =>
                                             bin_label (freq_map agg_opt)
                                                       (FIRST_STATEMENT_DATE r)
                                             =? s) data))))
                      (time_bins (freq_map agg_opt) (dates_of data)))
               == Qabs (Qsum (CHARGEBACK_col data)))%Q).
  { rewrite (Qabs_Qsum_nonpos (CHARGEBACK_col data)).
    2:{ rewrite <- (filter_all (fun _ => true) data) by reflexivity.
        apply CHARGEBACK_col_nonpos, Neg. }
    unfold CHARGEBACK_col at 2. rewrite map_map.
    rewrite <- (Qsum_partition
                  (fun r : Classified => Qabs (CHARGEBACK_AMOUNT r))
                  (fun r : Classified => bin_label (freq_map agg_opt)
                                                   (FIRST_STATEMENT_DATE r))
                  (time_bins (freq_map agg_opt) (dates_of data)) data).
    - apply Qsum_map_ext. intros s _.
      rewrite Qabs_Qsum_nonpos by (apply CHARGEBACK_col_nonpos, Neg).
      unfold CHARGEBACK_col. rewrite map_map. reflexivity.
    - apply time_bins_NoDup.
    - intros r Hr. apply time_bins_cover.
      apply (in_map (fun r : Classified => FIRST_STATEMENT_DATE r)), Hr. }
  split.
  - unfold ts_segment, resample. rewrite !map_map.
    cbn [fst snd Seg.Chargeback]. exact G.
  - unfold ts_all, resample. rewrite !map_map.
    cbn [fst snd All.Chargeback]. exact G.
Qed.

Lemma chargebacks_add_up_witness :
  (Qsum (map Seg.Chargeback
             (buckets (Seg.over_time (render_segment Week gap_frame))))
   == Qabs (Seg.total_cb (Seg.metrics (render_segment Week gap_frame))))%Q /\
  (Qsum (map All.Chargeback
             (buckets (All.over_time (render_all Week gap_frame))))
   == Qabs (All.total_cb (All.metrics (render_all Week gap_frame))))%Q.
Proof.
  apply (chargebacks_add_up Week gap_frame).
  repeat constructor; discriminate.
Defined.

(** ** The months-paid bar charts *)

Lemma insert_distinct_In (x y : Z) (l : list Z) :
  In y (insert_distinct x l) <-> y = x \/ In y l.
Proof.
  induction l as [|z l IH]; cbn [insert_distinct In].
  - intuition.
  - destruct (Z.ltb_spec x z); [cbn [In]; intuition|].
    destruct (Z.eqb_spec x z) as [-> | N]; cbn [In]; [intuition|].
    rewrite IH. intuition.
Qed.

Lemma insert_distinct_sorted (x : Z) (l : list Z) :
  StronglySorted Z.lt l -> StronglySorted Z.lt (insert_distinct x l).
Proof.
  induction 1 as [|z l S IH F]; cbn [insert_distinct].
  - repeat constructor.
  - rewrite Forall_forall in F.
    destruct (Z.ltb_spec x z) as [L | G].
    + constructor; [constructor; [exact S | apply Forall_forall, F]|].
      apply Forall_forall. intros y [<- | Hy]; [exact L|].
      specialize (F y Hy). lia.
    + destruct (Z.eqb_spec x z) as [-> | N].
      * constructor; [exact S | apply Forall_forall, F].
      * constructor; [exact IH|].
        apply Forall_forall. intros y Hy. apply insert_distinct_In in Hy.
        destruct Hy as [-> | Hy]; [lia | apply F, Hy].
Qed.

Lemma sorted_values_In (xs : list Z) (y : Z) :
  In y (sorted_values xs) <-> In y xs.
Proof.
  induction xs as [|x xs IH]; [reflexivity|].
  cbn [sorted_values fold_right In]. fold (sorted_values xs).
  rewrite insert_distinct_In, IH. intuition.
Qed.

Lemma sorted_values_sorted (xs : list Z) :
  StronglySorted Z.lt (sorted_values xs).
Proof.
  induction xs as [|x xs IH]; [constructor|].
  cbn [sorted_values fold_right]. fold (sorted_values xs).
  apply insert_distinct_sorted, IH.
Qed.

Lemma sorted_span (l : list Z) (lo hi : Z) :
  StronglySorted Z.lt l ->
  Forall (fun x => lo <= x <= hi) l ->
  Z.of_nat (List.length l) <= Z.max 0 (hi - lo + 1).
Proof.
  intros S. revert lo. induction S as [|x l S IH F]; intros lo B.
  - cbn. lia.
  - inversion B as [|? ? Bx Bl]; subst.
    rewrite Forall_forall in F, Bl.
    assert (B' : Forall (fun y => x + 1 <= y <= hi) l).
    { apply Forall_forall. intros y Hy.
      specialize (F y Hy). specialize (Bl y Hy). lia. }
    specialize (IH (x + 1) B'). cbn [List.length].
    rewrite Nat2Z.inj_succ. lia.
Qed.

(** X9.  The months-paid bar chart has one bar per value that occurs, in
    strictly ascending order of the value; a bar's count is the number of
    rows with that value and is never zero, and the counts add up to the
    number of rows charted.  For classified rows there are at most 13 bars.
    [render_segment] shows its notice instead of the chart exactly for an
    empty segment, [render_all] exactly when no row is charged back. *)
Theorem month_distribution (data : list Classified) :
  StronglySorted Z.lt (map fst (month_dist data)) /\
  (forall m n,
      In (m, n) (month_dist data) <->
      (0 < n)%nat /\
      n = List.length (filter (fun r => MONTHS_PAID r =? m) data)) /\
  list_sum (map snd (month_dist data)) = List.length data /\
  (Forall well_classified data -> (List.length (month_dist data) <= 13)%nat) /\
  (months_chart_segment data = None <-> data = []) /\
  (months_chart_all data = None <-> count_status Charged_Back data = 0%nat).
Proof.
  assert (K : map fst (month_dist data) = sorted_values (MONTHS_PAID_col data)).
  { unfold month_dist. rewrite map_map. cbn [fst]. apply map_id. }
  assert (O : forall m, occurrences m (MONTHS_PAID_col data)
                        = List.length (filter (fun r => MONTHS_PAID r =? m) data)).
  { intros m. unfold occurrences, MONTHS_PAID_col. apply filter_length_map. }
  split; [rewrite K; apply sorted_values_sorted|].
  split; [|split; [|split; [|split]]].
  - intros m n. unfold month_dist. rewrite in_map_iff. split.
    + intros (m' & E & I). injection E as -> <-. rewrite O. split; [|reflexivity].
      rewrite sorted_values_In in I. unfold MONTHS_PAID_col in I.
      apply in_map_iff in I. destruct I as (r & E & I).
      assert (G : In r (filter (fun r => MONTHS_PAID r =? m) data))
        by (apply filter_In; split; [exact I | apply Z.eqb_eq, E]).
      destruct (filter _ data); [destruct G | cbn; lia].
    + intros [P ->]. exists m. rewrite O. split; [reflexivity|].
      rewrite sorted_values_In. unfold MONTHS_PAID_col.
      destruct (filter (fun r => MONTHS_PAID r =? m) data) as [|r l] eqn:F;
        [cbn in P; lia|].
      assert (G : In r (filter (fun r => MONTHS_PAID r =? m) data))
        by (rewrite F; left; reflexivity).
      apply filter_In in G. destruct G as [I E]. apply Z.eqb_eq in E.
      rewrite <- E. apply in_map, I.
  - unfold month_dist. rewrite map_map. cbn [snd].
    rewrite (map_ext _ (fun m => List.length
                                   (filter (fun r => MONTHS_PAID r =? m) data)) O).
    apply (length_partition MONTHS_PAID).
    + apply StronglySorted_lt_NoDup, sorted_values_sorted.
    + intros r Hr. rewrite sorted_values_In. unfold MONTHS_PAID_col.
      apply in_map, Hr.
  - intros W.
    assert (L : List.length (month_dist data)
                = List.length (sorted_values (MONTHS_PAID_col data)))
      by (rewrite <- K; symmetry; apply length_map).
    rewrite L.
    pose proof (sorted_span (sorted_values (MONTHS_PAID_col data)) 0 12
                            (sorted_values_sorted _)) as Sp.
    assert (B : Forall (fun x => 0 <= x <= 12)
                       (sorted_values (MONTHS_PAID_col data))).
    { apply Forall_forall. intros m Hm. rewrite sorted_values_In in Hm.
      unfold MONTHS_PAID_col in Hm. apply in_map_iff in Hm.
      destruct Hm as (r & <- & I).
      rewrite Forall_forall in W. apply (W r I). }
    specialize (Sp B). lia.
  - unfold months_chart_segment. destruct data; split; congruence.
  - unfold months_chart_all, count_status.
    fold (cb_data data). destruct (cb_data data); cbn [List.length];
      split; congruence.
Qed.

(** ** When the script returns *)

(** X10.  With a sidebar widget that answers, the script stops with
    [TypeError] exactly when no loaded row has a date that parses, and
    returns its three tabs otherwise. *)
Theorem script_fails_iff_no_date (parse : string -> option Z)
                                 (date_input : date_input_args -> result (Z * Z))
                                 (agg_all agg_ip agg_nip : agg)
                                 (loaded : list Raw.row) :
  (forall a, exists range, date_input a = Ok range) ->
  (script parse date_input agg_all agg_ip agg_nip loaded = Raise TypeError <->
   forall r, In r loaded ->
             to_datetime parse (Raw.FIRST_STATEMENT_DATE r) = NaT) /\
  ((exists r, In r loaded /\
              to_datetime parse (Raw.FIRST_STATEMENT_DATE r) <> NaT) <->
   exists d, script parse date_input agg_all agg_ip agg_nip loaded = Ok d).
Proof.
  intros Widget.
  assert (Nil : snd (clean parse loaded) = [] <->
                forall r, In r loaded ->
                          to_datetime parse (Raw.FIRST_STATEMENT_DATE r) = NaT).
  { unfold clean. cbn [snd]. split.
    - intros E r Hr.
      destruct (to_datetime parse (Raw.FIRST_STATEMENT_DATE r)) as [|d] eqn:T;
        [reflexivity|].
      assert (I : In (mkSummary (Raw.POLICY_ID r) (Raw.POLICY_NUMBER r) d
                                (Raw.ADVANCE_AMOUNT r) (Raw.CHARGEBACK_AMOUNT r))
                     (dropna (parsed parse loaded))).
      { apply dropna_In. exists r. cbn [FIRST_STATEMENT_DATE]. auto. }
      rewrite E in I. destruct I.
    - intros H. destruct (dropna (parsed parse loaded)) as [|s l] eqn:E;
        [reflexivity|].
      assert (I : In s (dropna (parsed parse loaded)))
        by (rewrite E; left; reflexivity).
      apply dropna_In in I. destruct I as (r & Ir & T & _).
      rewrite (H r Ir) in T. discriminate. }
  assert (Fail : snd (clean parse loaded) = [] ->
                 script parse date_input agg_all agg_ip agg_nip loaded
                 = Raise TypeError).
  { unfold script. destruct (clean parse loaded) as [shown df].
    cbn [snd]. intros ->. reflexivity. }
  split.
  - rewrite <- Nil. split; [|exact Fail].
    intros R. destruct (snd (clean parse loaded)) as [|s l] eqn:E;
      [reflexivity|].
    destruct (script_returns parse date_input agg_all agg_ip agg_nip loaded)
      as (d & Hd & _); [rewrite E; discriminate | exact Widget |].
    congruence.
  - split.
    + intros (r & Ir & T).
      destruct (script_returns parse date_input agg_all agg_ip agg_nip loaded)
        as (d & Hd & _); [|exact Widget | eauto].
      intros E. apply T. apply (proj1 Nil E r Ir).
    + intros (d & Hd).
      destruct (snd (clean parse loaded)) as [|s l] eqn:E.
      * rewrite (Fail eq_refl) in Hd. discriminate.
      * assert (I : In s (snd (clean parse loaded)))
          by (rewrite E; left; reflexivity).
        unfold clean in I. cbn [snd] in I. apply dropna_In in I.
        destruct I as (r & Ir & T & _). exists r. split; [exact Ir|].
        rewrite T. discriminate.
Qed.

Lemma script_fails_iff_no_date_witness :
  (script (fun _ => Some 19723) (fun a => Ok (value a)) Day Day Day
          [Raw.mk 1 "P"%string (Some "2024-01-01"%string) 100 (-50)]
   = Raise TypeError <->
   forall r, In r [Raw.mk 1 "P"%string (Some "2024-01-01"%string) 100 (-50)] ->
             to_datetime (fun _ => Some 19723) (Raw.FIRST_STATEMENT_DATE r)
             = NaT) /\
  ((exists r, In r [Raw.mk 1 "P"%string (Some "2024-01-01"%string) 100 (-50)] /\
              to_datetime (fun _ => Some 19723) (Raw.FIRST_STATEMENT_DATE r)
              <> NaT) <->
   exists d, script (fun _ => Some 19723) (fun a => Ok (value a)) Day Day Day
                    [Raw.mk 1 "P"%string (Some "2024-01-01"%string) 100 (-50)]
             = Ok d).
Proof.
  apply (script_fails_iff_no_date (fun _ => Some 19723)
                                  (fun a => Ok (value a)) Day Day Day).
  intros a. exists (value a). reflexivity.
Defined.

(** ** The query, policy by policy *)

Lemma base_In (acp : list Ledger.commission) (policies : list Ledger.policy)
              (x : Ledger.commission * string) :
  In x (Ledger.base acp policies) <->
  exists a p, In a acp /\ In p policies /\
              Ledger.POLICY_ID a = Ledger.ID p /\
              x = (a, Ledger.POLICY_NUMBER p).
Proof.
  unfold Ledger.base. rewrite in_flat_map. split.
  - intros (a & Ia & H). apply in_map_iff in H. destruct H as (p & <- & Hp).
    apply filter_In in Hp. destruct Hp as [Ip E]. apply Z.eqb_eq in E.
    exists a, p. auto.
  - intros (a & p & Ia & Ip & E & ->). exists a. split; [exact Ia|].
    apply in_map_iff. exists p. split; [reflexivity|].
    apply filter_In. split; [exact Ip | apply Z.eqb_eq, E].
Qed.

Lemma key_eqb_eq (k k' : Z * string) : Ledger.key_eqb k k' = true <-> k = k'.
Proof.
  unfold Ledger.key_eqb. destruct (Ledger.key_eq_dec k k'); split;
    congruence.
Qed.

Lemma minimum_spec (d : Z) (ds : list Z) :
  In (Ledger.minimum d ds) (d :: ds) /\
  forall x, In x (d :: ds) -> Ledger.minimum d ds <= x.
Proof.
  revert d. induction ds as [|y ds IH]; intros d; cbn [Ledger.minimum].
  - split; [left; reflexivity|]. intros x [<- | []]. lia.
  - destruct (IH y) as [I L]. split.
    + destruct (Z.min_spec d (Ledger.minimum y ds)) as [[_ ->] | [_ ->]];
        [left; reflexivity | right; exact I].
    + intros x [<- | Hx]; [lia|]. specialize (L x Hx). lia.
Qed.

(** The rows of [first_statement]: one for each key of [base], with the
    earliest date among the rows of that key. *)
Lemma first_statement_In (b : list (Ledger.commission * string))
                         (k : Z * string) (d : Z) :
  In (k, d) (Ledger.first_statement b) <->
  (exists x, In x b /\ (Ledger.POLICY_ID (fst x), snd x) = k /\
             Ledger.STATEMENT_DATE (fst x) = d) /\
  (forall x, In x b -> (Ledger.POLICY_ID (fst x), snd x) = k ->
             d <= Ledger.STATEMENT_DATE (fst x)).
Proof.
  unfold Ledger.first_statement. cbv zeta. rewrite in_flat_map.
  set (key := fun r : Ledger.commission * string =>
                (Ledger.POLICY_ID (fst r), snd r)).
  assert (G : forall k' y,
             In y (map (fun r => Ledger.STATEMENT_DATE (fst r))
                       (filter (fun r => Ledger.key_eqb (key r) k') b)) <->
             exists x, In x b /\ key x = k' /\
                       Ledger.STATEMENT_DATE (fst x) = y).
  { intros k' y. rewrite in_map_iff. split.
    - intros (x & E & Hx). apply filter_In in Hx. destruct Hx as [I K].
      apply key_eqb_eq in K. eauto.
    - intros (x & I & K & E). exists x. split; [exact E|].
      apply filter_In. split; [exact I | apply key_eqb_eq, K]. }
  split.
  - intros (k' & _ & H).
    destruct (map _ (filter _ b)) as [|d0 ds] eqn:Dates; [destruct H|].
    destruct H as [H | []]. injection H as -> Ed.
    destruct (minimum_spec d0 ds) as [I L]. rewrite Ed, <- Dates in I, L.
    split.
    + apply G, I.
    + intros x Hx Kx. apply L, G. eauto.
  - intros [(x & Ix & Kx & Dx) Least]. exists k. split.
    + apply nodup_In. rewrite <- Kx. apply (in_map key), Ix.
    + destruct (map _ (filter _ b)) as [|d0 ds] eqn:Dates.
      * assert (I : In d []); [|destruct I].
        rewrite <- Dates. apply G. eauto.
      * left. f_equal.
        destruct (minimum_spec d0 ds) as [I L]. rewrite <- Dates in I, L.
        apply G in I. destruct I as (x' & Ix' & Kx' & Dx').
        apply Z.le_antisymm.
        -- apply L, G. eauto.
        -- rewrite <- Dx'. apply Least; assumption.
Qed.

Lemma first_statement_keys (b : list (Ledger.commission * string)) :
  NoDup (map fst (Ledger.first_statement b)).
Proof.
  unfold Ledger.first_statement. cbv zeta.
  set (keys := nodup Ledger.key_eq_dec _).
  assert (N : NoDup keys) by apply NoDup_nodup.
  clearbody keys. induction N as [|k keys Nk N IH]; [constructor|].
  cbn [flat_map]. rewrite map_app.
  match goal with
  | |- NoDup (map fst ?row ++ _) =>
      assert (R : map fst row = [] \/ map fst row = [k])
        by (destruct (map _ (filter _ b)); [left | right]; reflexivity)
  end.
  destruct R as [-> | ->]; [exact IH|].
  constructor; [|exact IH].
  intros I. apply in_map_iff in I. destruct I as ([k' d] & E & I).
  cbn [fst] in E. subst k'. apply in_flat_map in I.
  destruct I as (k' & Ik' & I).
  destruct (map _ (filter _ b)); [destruct I|].
  destruct I as [I | []]. injection I as -> _. contradiction.
Qed.

Lemma load_data_In (to_varchar : Z -> string)
                   (acp : list Ledger.commission)
                   (policies : list Ledger.policy) (r : Raw.row) :
  In r (Ledger.load_data to_varchar acp policies) ->
  exists d,
    In ((Raw.POLICY_ID r, Raw.POLICY_NUMBER r), d)
       (Ledger.first_statement (Ledger.base acp policies)) /\
    Raw.FIRST_STATEMENT_DATE r = Some (to_varchar d).
Proof.
  unfold Ledger.load_data. cbv zeta. intros H.
  apply in_map_iff in H. destruct H as ([[k n] d] & <- & I).
  exists d. cbn. auto.
Qed.

(** X11.  The query returns one row for each pair of a policy identifier
    and a policy number that has at least one commission row, and no other;
    the date of the row is the earliest statement date among the commission
    rows of that policy. *)
Theorem one_row_per_policy (to_varchar : Z -> string)
                           (acp : list Ledger.commission)
                           (policies : list Ledger.policy) :
  let loaded := Ledger.load_data to_varchar acp policies in
  NoDup (map (fun r => (Raw.POLICY_ID r, Raw.POLICY_NUMBER r)) loaded) /\
  (forall id number,
      In (id, number)
         (map (fun r => (Raw.POLICY_ID r, Raw.POLICY_NUMBER r)) loaded) <->
      In (Ledger.mk_policy id number) policies /\
      exists a, In a acp /\ Ledger.POLICY_ID a = id) /\
  (forall r, In r loaded ->
     exists d,
       Raw.FIRST_STATEMENT_DATE r = Some (to_varchar d) /\
       (exists a, In a acp /\ Ledger.POLICY_ID a = Raw.POLICY_ID r /\
                  Ledger.STATEMENT_DATE a = d) /\
       (forall a, In a acp -> Ledger.POLICY_ID a = Raw.POLICY_ID r ->
                  d <= Ledger.STATEMENT_DATE a)).
Proof.
  cbv zeta.
  assert (K : map (fun r => (Raw.POLICY_ID r, Raw.POLICY_NUMBER r))
                  (Ledger.load_data to_varchar acp policies)
              = map fst (Ledger.first_statement (Ledger.base acp policies))).
  { unfold Ledger.load_data. cbv zeta. rewrite map_map. apply map_ext.
    intros [[k n] d]. reflexivity. }
  split; [rewrite K; apply first_statement_keys|].
  split.
  - intros id number. rewrite K, in_map_iff. split.
    + intros ([k d] & E & I). cbn [fst] in E. subst k.
      apply first_statement_In in I. destruct I as [(x & Ix & Kx & _) _].
      apply base_In in Ix. destruct Ix as (a & p & Ia & Ip & E & ->).
      cbn [fst snd] in Kx. injection Kx as <- <-.
      split; [|eauto]. rewrite E. destruct p. exact Ip.
    + intros [Ip (a & Ia & E)].
      assert (B : In (a, number) (Ledger.base acp policies)).
      { apply base_In. exists a, (Ledger.mk_policy id number). auto. }
      assert (Kin : In (id, number)
                       (map fst (Ledger.first_statement
                                   (Ledger.base acp policies)))).
      { unfold Ledger.first_statement. cbv zeta.
        set (key := fun r : Ledger.commission * string =>
                      (Ledger.POLICY_ID (fst r), snd r)).
        apply in_map_iff.
        destruct (map (fun r : Ledger.commission * string =>
                         Ledger.STATEMENT_DATE (fst r))
                      (filter (fun r : Ledger.commission * string =>
                                 Ledger.key_eqb
                                   (Ledger.POLICY_ID (fst r), snd r)
                                   (id, number))
                              (Ledger.base acp policies)))
          as [|d0 ds] eqn:Dates.
        - assert (I : In (Ledger.STATEMENT_DATE a) []); [|destruct I].
          rewrite <- Dates.
          apply (in_map (fun r => Ledger.STATEMENT_DATE (fst r)) _ (a, number)).
          apply filter_In. split; [exact B|].
          apply key_eqb_eq. unfold key. cbn [fst snd]. congruence.
        - exists ((id, number), Ledger.minimum d0 ds). split; [reflexivity|].
          apply in_flat_map. exists (id, number). split.
          + apply nodup_In. rewrite <- E.
            apply (in_map key _ (a, number)), B.
          + rewrite Dates. left. reflexivity. }
      apply in_map_iff in Kin. exact Kin.
  - intros r Hr. destruct (load_data_In _ _ _ _ Hr) as (d & I & T).
    exists d. split; [exact T|].
    apply first_statement_In in I. destruct I as [(x & Ix & Kx & Dx) Least].
    apply base_In in Ix. destruct Ix as (a & p & Ia & Ip & E & ->).
    cbn [fst snd] in Kx, Dx. injection Kx as Kid Knum.
    split; [eauto|].
    intros a' Ia' E'. apply (Least (a', Raw.POLICY_NUMBER r)).
    + apply base_In. exists a', p. repeat split; auto; congruence.
    + cbn [fst snd]. congruence.
Qed.

Lemma find_keyed {V : Type} (t : Z -> V) (keys : list Z) (k : Z) :
  find (fun r : Z * V => fst r =? k) (map (fun k' => (k', t k')) keys)
  = if in_dec Z.eq_dec k keys then Some (k, t k) else None.
Proof.
  induction keys as [|k' keys IH]; [reflexivity|].
  cbn [map find fst]. destruct (Z.eqb_spec k' k) as [-> | N].
  - destruct (in_dec Z.eq_dec k (k :: keys)) as [_ | NI]; [reflexivity|].
    exfalso. apply NI. left. reflexivity.
  - rewrite IH.
    destruct (in_dec Z.eq_dec k keys) as [I | NI];
      destruct (in_dec Z.eq_dec k (k' :: keys)) as [I' | NI'];
      try reflexivity.
    + exfalso. apply NI'. right. exact I.
    + exfalso. destruct I' as [E | I']; [congruence | contradiction].
Qed.

Lemma filter_none {A : Type} (p : A -> bool) (l : list A) :
  (forall x, In x l -> p x = false) -> filter p l = [].
Proof.
  induction l as [|x l IH]; intros H; [reflexivity|].
  cbn [filter]. rewrite (H x (or_introl eq_refl)).
  apply IH. intros y Hy. apply H. right. exact Hy.
Qed.

(** [COALESCE] of the group's sum is the sum over the rows of the policy,
    an empty sum when the policy has no group. *)
Lemma coalesce_group_total (rows : list (Z * Q)) (k : Z) :
  Ledger.coalesce_amount k (Ledger.group_sum rows)
  = fold_right Qplus 0%Q (map snd (filter (fun r => fst r =? k) rows)).
Proof.
  unfold Ledger.coalesce_amount, Ledger.group_sum.
  rewrite (find_keyed
             (fun k' => fold_right Qplus 0%Q
                          (map snd (filter (fun r => fst r =? k') rows)))).
  destruct (in_dec Z.eq_dec k (nodup Z.eq_dec (map fst rows))) as [I | NI];
    [reflexivity|].
  rewrite filter_none; [reflexivity|].
  intros x Hx. apply Z.eqb_neq. intros E. apply NI, nodup_In.
  rewrite <- E. apply in_map, Hx.
Qed.

Lemma filter_map_comm {A B : Type} (p : B -> bool) (f : A -> B) (l : list A) :
  filter p (map f l) = map f (filter (fun a => p (f a)) l).
Proof.
  induction l as [|a l IH]; [reflexivity|].
  cbn [map filter]. destruct (p (f a)); cbn [map]; congruence.
Qed.

Lemma filter_swap {A : Type} (p q : A -> bool) (l : list A) :
  filter p (filter q l) = filter q (filter p l).
Proof.
  induction l as [|a l IH]; [reflexivity|].
  cbn [filter]. destruct (p a) eqn:P; destruct (q a) eqn:Q';
    cbn [filter]; rewrite ?P, ?Q'; congruence.
Qed.

Lemma fold_Qplus_neg (xs : list Q) :
  Forall (fun x => (x < 0)%Q) xs ->
  ((fold_right Qplus 0 xs == 0)%Q <-> xs = []).
Proof.
  intros H. split; [|intros ->; reflexivity].
  destruct H as [|x xs Hx Hxs]; [reflexivity|].
  cbn [fold_right]. intros E. exfalso.
  assert (G : (fold_right Qplus 0 xs <= 0)%Q).
  { apply fold_Qplus_nonpos. eapply Forall_impl; [|exact Hxs].
    intros a Ha. apply Qlt_le_weak, Ha. }
  lra.
Qed.

(** X12.  No loaded row has a negative advance or a positive chargeback,
    and the chargeback is zero exactly when the policy has no commission row
    with a negative amount: such policies, and only they, will be
    [Active]. *)
Theorem loaded_amounts (to_varchar : Z -> string)
                       (acp : list Ledger.commission)
                       (policies : list Ledger.policy) (r : Raw.row) :
  In r (Ledger.load_data to_varchar acp policies) ->
  (0 <= Raw.ADVANCE_AMOUNT r)%Q /\
  (Raw.CHARGEBACK_AMOUNT r <= 0)%Q /\
  ((Raw.CHARGEBACK_AMOUNT r == 0)%Q <->
   forall a, In a acp -> Ledger.POLICY_ID a = Raw.POLICY_ID r ->
             (0 <= Ledger.PAID_OVERRIDE_AMOUNT a)%Q).
Proof.
  intros Hr. destruct (load_data_signs _ _ _ _ Hr) as [A C].
  split; [exact A|]. split; [exact C|].
  destruct (load_data_In _ _ _ _ Hr) as (d & I & _).
  apply first_statement_In in I. destruct I as [(x & Ix & Kx & _) _].
  apply base_In in Ix. destruct Ix as (a0 & p & _ & Ip & E0 & ->).
  cbn [fst snd] in Kx. injection Kx as Kid Knum.
  unfold Ledger.load_data in Hr. cbv zeta in Hr.
  apply in_map_iff in Hr. destruct Hr as (s & <- & _).
  cbn [Raw.CHARGEBACK_AMOUNT Raw.POLICY_ID] in *.
  set (k := fst (fst s)) in *.
  unfold Ledger.chargebacks. rewrite coalesce_group_total.
  set (b := Ledger.base acp policies).
  set (L := map snd (filter (fun r => fst r =? k)
                            (map Ledger.amount_of
                                 (filter (fun r => Qltb (Ledger.PAID_OVERRIDE_AMOUNT (fst r)) 0)
                                         b)))).
  assert (Lin : forall v, In v L <->
                          exists x, In x b /\
                                    (Ledger.PAID_OVERRIDE_AMOUNT (fst x) < 0)%Q /\
                                    Ledger.POLICY_ID (fst x) = k /\
                                    v = Ledger.PAID_OVERRIDE_AMOUNT (fst x)).
  { intros v. unfold L. rewrite in_map_iff. split.
    - intros ([k' v'] & <- & H). apply filter_In in H. destruct H as [H K].
      apply in_map_iff in H. destruct H as (x & Ex & Hx).
      apply filter_In in Hx. destruct Hx as [Ix Nx].
      apply Qltb_lt in Nx. apply Z.eqb_eq in K. cbn [fst] in K.
      unfold Ledger.amount_of in Ex. injection Ex as <- <-.
      exists x. auto.
    - intros (x & Ix & Nx & Kx & ->). exists (Ledger.amount_of x).
      split; [reflexivity|]. apply filter_In. split.
      + apply in_map, filter_In. split; [exact Ix | apply Qltb_lt, Nx].
      + apply Z.eqb_eq. exact Kx. }
  assert (Lneg : Forall (fun v => (v < 0)%Q) L).
  { apply Forall_forall. intros v Hv. apply Lin in Hv.
    destruct Hv as (x & _ & Nx & _ & ->). exact Nx. }
  rewrite (fold_Qplus_neg L Lneg). split.
  - intros Nil a Ia Ea.
    apply Qnot_lt_le. intros Na.
    assert (G : In (Ledger.PAID_OVERRIDE_AMOUNT a) L); [|rewrite Nil in G; destruct G].
    apply Lin. exists (a, Ledger.POLICY_NUMBER p). cbn [fst].
    repeat split; auto.
    apply base_In. exists a, p. repeat split; auto. congruence.
  - intros Pos. destruct L as [|v L'] eqn:EL; [reflexivity|]. exfalso.
    assert (G : In v (v :: L')) by (left; reflexivity).
    apply Lin in G. destruct G as (x & Ix & Nx & Kx & _).
    apply base_In in Ix. destruct Ix as (a & p' & Ia & _ & _ & ->).
    cbn [fst] in *. specialize (Pos a Ia Kx). lra.
Qed.

Lemma loaded_amounts_witness :
  let acp := [ Ledger.mk_commission 1 19783 1200;
               Ledger.mk_commission 1 19814 (-600) ] in
  let policies := [ Ledger.mk_policy 1 "X"%string ] in
  let r := Raw.mk 1 "X"%string (Some "2024-03-01"%string)
                  (1200 + 0) (-600 + 0) in
  (0 <= Raw.ADVANCE_AMOUNT r)%Q /\
  (Raw.CHARGEBACK_AMOUNT r <= 0)%Q /\
  ((Raw.CHARGEBACK_AMOUNT r == 0)%Q <->
   forall a, In a acp -> Ledger.POLICY_ID a = Raw.POLICY_ID r ->
             (0 <= Ledger.PAID_OVERRIDE_AMOUNT a)%Q).
Proof.
  apply (loaded_amounts (fun _ => "2024-03-01"%string)
                        [ Ledger.mk_commission 1 19783 1200;
                          Ledger.mk_commission 1 19814 (-600) ]
                        [ Ledger.mk_policy 1 "X"%string ]).
  left. reflexivity.
Defined.

(** ** The amounts when policy identifiers are unique *)

Lemma NoDup_map_eq {A B : Type} (f : A -> B) (l : list A) (x y : A) :
  NoDup (map f l) -> In x l -> In y l -> f x = f y -> x = y.
Proof.
  induction l as [|a l IH]; intros N Ix Iy E; [destruct Ix|].
  cbn [map] in N. inversion N as [|? ? Na Nl]; subst.
  destruct Ix as [-> | Ix], Iy as [-> | Iy].
  - reflexivity.
  - exfalso. apply Na. rewrite E. apply in_map, Iy.
  - exfalso. apply Na. rewrite <- E. apply in_map, Ix.
  - apply IH; assumption.
Qed.

Lemma NoDup_map_on {A B : Type} (f : A -> B) (l : list A) :
  NoDup l ->
  (forall x y, In x l -> In y l -> f x = f y -> x = y) ->
  NoDup (map f l).
Proof.
  induction 1 as [|a l Na N IH]; intros Inj; [constructor|].
  cbn [map]. constructor.
  - intros I. apply in_map_iff in I. destruct I as (y & E & Iy).
    apply Na. rewrite <- (Inj y a); auto; [right; exact Iy | left; reflexivity].
  - apply IH. intros x y Ix Iy. apply Inj; right; assumption.
Qed.

Lemma unique_policy (policies : list Ledger.policy) (p : Ledger.policy) :
  NoDup (map Ledger.ID policies) ->
  In p policies ->
  filter (fun p' => Ledger.ID p =? Ledger.ID p') policies = [p].
Proof.
  intros N I. induction policies as [|q policies IH]; [destruct I|].
  cbn [map] in N. inversion N as [|? ? Nq Nl]; subst.
  cbn [filter]. destruct I as [-> | I].
  - rewrite Z.eqb_refl. f_equal. apply filter_none. intros p' Ip'.
    apply Z.eqb_neq. intros E. apply Nq. rewrite E. apply in_map, Ip'.
  - destruct (Z.eqb_spec (Ledger.ID p) (Ledger.ID q)) as [E | NE].
    + exfalso. apply Nq. rewrite <- E. apply in_map, I.
    + apply IH; assumption.
Qed.

(** With unique identifiers the rows of [base] for a policy are its
    commission rows, each once. *)
Lemma base_of_policy (acp : list Ledger.commission)
                     (policies : list Ledger.policy) (p : Ledger.policy) :
  NoDup (map Ledger.ID policies) ->
  In p policies ->
  filter (fun x => Ledger.POLICY_ID (fst x) =? Ledger.ID p)
         (Ledger.base acp policies)
  = map (fun a => (a, Ledger.POLICY_NUMBER p))
        (filter (fun a => Ledger.POLICY_ID a =? Ledger.ID p) acp).
Proof.
  intros N I. unfold Ledger.base.
  induction acp as [|a acp IH]; [reflexivity|].
  cbn [flat_map filter]. rewrite filter_app, IH.
  destruct (Z.eqb_spec (Ledger.POLICY_ID a) (Ledger.ID p)) as [E | NE].
  - rewrite E, (unique_policy _ _ N I). cbn [map filter fst].
    rewrite E, Z.eqb_refl. reflexivity.
  - rewrite filter_none; [reflexivity|].
    intros x Hx. apply in_map_iff in Hx. destruct Hx as (p' & <- & _).
    cbn [fst]. apply Z.eqb_neq, NE.
Qed.

Lemma first_statement_ids (acp : list Ledger.commission)
                          (policies : list Ledger.policy) :
  NoDup (map Ledger.ID policies) ->
  NoDup (map (fun s : Z * string * Z => fst (fst s))
             (Ledger.first_statement (Ledger.base acp policies))).
Proof.
  intros N.
  rewrite <- (map_map fst fst).
  apply NoDup_map_on; [apply first_statement_keys|].
  intros [k n] [k' n'] I I' E. cbn [fst] in E. subst k'.
  apply in_map_iff in I, I'.
  destruct I as ([? d] & E & I), I' as ([? d'] & E' & I').
  cbn [fst] in E, E'. subst.
  apply first_statement_In in I, I'.
  destruct I as [(x & Ix & Kx & _) _], I' as [(x' & Ix' & Kx' & _) _].
  apply base_In in Ix, Ix'.
  destruct Ix as (a & p & _ & Ip & Ea & ->).
  destruct Ix' as (a' & p' & _ & Ip' & Ea' & ->).
  cbn [fst snd] in Kx, Kx'. injection Kx as K1 <-. injection Kx' as K1' <-.
  f_equal. f_equal.
  apply (NoDup_map_eq Ledger.ID policies); auto. congruence.
Qed.

(** The join of [advance]: a row of [base] is kept once when its date is
    the first statement date of its policy, and dropped otherwise. *)
Lemma joined_on_first_date (fs : list (Z * string * Z)) (k : Z) (n : string)
                           (first : Z) (x : Ledger.commission * string) :
  NoDup (map (fun s : Z * string * Z => fst (fst s)) fs) ->
  In ((k, n), first) fs ->
  Ledger.POLICY_ID (fst x) = k ->
  flat_map (fun s : Z * string * Z =>
              if (Ledger.POLICY_ID (fst x) =? fst (fst s))
                 && (Ledger.STATEMENT_DATE (fst x) =? snd s)
              then [x] else [])
           fs
  = if Ledger.STATEMENT_DATE (fst x) =? first then [x] else [].
Proof.
  intros N I E. rewrite E.
  assert (Rest : forall l : list (Z * string * Z),
             ~ In k (map (fun s : Z * string * Z => fst (fst s)) l) ->
             flat_map (fun s : Z * string * Z =>
                         if (k =? fst (fst s))
                            && (Ledger.STATEMENT_DATE (fst x) =? snd s)
                         then [x] else []) l = []).
  { induction l as [|s l IHl]; intros NI; [reflexivity|].
    cbn [flat_map]. rewrite IHl by (intros H; apply NI; right; exact H).
    destruct (Z.eqb_spec k (fst (fst s))) as [Ek | _]; [|reflexivity].
    exfalso. apply NI. left. auto. }
  induction fs as [|s fs IH]; [destruct I|].
  cbn [map] in N. inversion N as [|? ? Ns Nl]; subst.
  cbn [flat_map]. destruct I as [-> | I].
  - cbn [fst snd]. rewrite Z.eqb_refl, (Rest fs Ns), app_nil_r.
    reflexivity.
  - destruct (Z.eqb_spec (Ledger.POLICY_ID (fst x)) (fst (fst s))) as [Ek | _].
    + exfalso. apply Ns. rewrite <- Ek.
      apply (in_map (fun s : Z * string * Z => fst (fst s)) _ _ I).
    + cbn [andb app]. apply IH; assumption.
Qed.

Lemma joined_of_policy (b : list (Ledger.commission * string))
                       (fs : list (Z * string * Z)) (k : Z) (n : string)
                       (first : Z) :
  NoDup (map (fun s : Z * string * Z => fst (fst s)) fs) ->
  In ((k, n), first) fs ->
  filter (fun x => Ledger.POLICY_ID (fst x) =? k)
         (flat_map
            (fun r =>
               flat_map
                 (fun s : Z * string * Z =>
                    if (Ledger.POLICY_ID (fst r) =? fst (fst s))
                       && (Ledger.STATEMENT_DATE (fst r) =? snd s)
                    then [r] else [])
                 fs)
            b)
  = filter (fun x => Ledger.STATEMENT_DATE (fst x) =? first)
           (filter (fun x => Ledger.POLICY_ID (fst x) =? k) b).
Proof.
  intros N I. induction b as [|x b IH]; [reflexivity|].
  cbn [flat_map filter]. rewrite filter_app, IH.
  destruct (Z.eqb_spec (Ledger.POLICY_ID (fst x)) k) as [E | NE].
  - rewrite (joined_on_first_date fs k n first x N I E). cbn [filter].
    destruct (Ledger.STATEMENT_DATE (fst x) =? first); cbn [filter app];
      [|reflexivity].
    destruct (Z.eqb_spec (Ledger.POLICY_ID (fst x)) k); [reflexivity | contradiction].
  - rewrite filter_none; [reflexivity|].
    intros y Hy. apply in_flat_map in Hy. destruct Hy as (s & _ & Hy).
    destruct (_ && _); [|destruct Hy]. destruct Hy as [<- | []].
    apply Z.eqb_neq, NE.
Qed.

(** X13.  When the policy table has one row per identifier, the advance of
    a loaded policy is the sum of the positive amounts of its commission
    rows dated on its first statement date (positive amounts on later
    statements are not counted), and its chargeback is the sum of the
    negative amounts of all its commission rows. *)
Theorem amounts_of_policy (to_varchar : Z -> string)
                          (acp : list Ledger.commission)
                          (policies : list Ledger.policy) (r : Raw.row) :
  NoDup (map Ledger.ID policies) ->
  In r (Ledger.load_data to_varchar acp policies) ->
  let mine := filter (fun a => Ledger.POLICY_ID a =? Raw.POLICY_ID r) acp in
  exists first,
    Raw.FIRST_STATEMENT_DATE r = Some (to_varchar first) /\
    Raw.ADVANCE_AMOUNT r
    = Qsum (map Ledger.PAID_OVERRIDE_AMOUNT
                (filter (fun a => Qltb 0 (Ledger.PAID_OVERRIDE_AMOUNT a))
                        (filter (fun a => Ledger.STATEMENT_DATE a =? first)
                                mine))) /\
    Raw.CHARGEBACK_AMOUNT r
    = Qsum (map Ledger.PAID_OVERRIDE_AMOUNT
                (filter (fun a => Qltb (Ledger.PAID_OVERRIDE_AMOUNT a) 0) mine)).
Proof.
  intros N Hr. cbv zeta.
  destruct (load_data_In _ _ _ _ Hr) as (first & I & T).
  exists first. split; [exact T|].
  pose proof (first_statement_ids acp policies N) as Nids.
  pose proof I as I'.
  apply first_statement_In in I'. destruct I' as [(x & Ix & Kx & _) _].
  apply base_In in Ix. destruct Ix as (a0 & p & _ & Ip & E0 & ->).
  cbn [fst snd] in Kx. injection Kx as Kid Knum.
  assert (Ek : Raw.POLICY_ID r = Ledger.ID p) by congruence.
  unfold Ledger.load_data in Hr. cbv zeta in Hr.
  apply in_map_iff in Hr. destruct Hr as (s & Es & Is).
  assert (Ea : Raw.ADVANCE_AMOUNT r
               = Ledger.coalesce_amount (Raw.POLICY_ID r)
                   (Ledger.advance (Ledger.base acp policies)
                      (Ledger.first_statement (Ledger.base acp policies))))
    by (rewrite <- Es; reflexivity).
  assert (Ec : Raw.CHARGEBACK_AMOUNT r
               = Ledger.coalesce_amount (Raw.POLICY_ID r)
                   (Ledger.chargebacks (Ledger.base acp policies)))
    by (rewrite <- Es; reflexivity).
  clear Es Is s. rewrite Ea, Ec. clear Ea Ec.
  unfold Ledger.advance, Ledger.chargebacks.
  rewrite !coalesce_group_total, !filter_map_comm, !map_map.
  cbn [Ledger.amount_of fst snd].
  split.
  - rewrite filter_swap.
    rewrite (joined_of_policy _ _ (Raw.POLICY_ID r) (Raw.POLICY_NUMBER r)
                              first Nids I).
    rewrite Ek, (base_of_policy acp policies p N Ip).
    rewrite !filter_map_comm, map_map. cbn [fst]. reflexivity.
  - rewrite filter_swap.
    rewrite Ek, (base_of_policy acp policies p N Ip).
    rewrite !filter_map_comm, map_map. cbn [fst]. reflexivity.
Qed.

Lemma amounts_of_policy_witness :
  let acp := [ Ledger.mk_commission 1 19783 1200;
               Ledger.mk_commission 1 19814 300;
               Ledger.mk_commission 1 19814 (-600) ] in
  let r := Raw.mk 1 "X"%string (Some "2024-03-01"%string)
                  (1200 + 0) (-600 + 0) in
  let mine := filter (fun a => Ledger.POLICY_ID a =? Raw.POLICY_ID r) acp in
  exists first,
    Raw.FIRST_STATEMENT_DATE r = Some "2024-03-01"%string /\
    Raw.ADVANCE_AMOUNT r
    = Qsum (map Ledger.PAID_OVERRIDE_AMOUNT
                (filter (fun a => Qltb 0 (Ledger.PAID_OVERRIDE_AMOUNT a))
                        (filter (fun a => Ledger.STATEMENT_DATE a =? first)
                                mine))) /\
    Raw.CHARGEBACK_AMOUNT r
    = Qsum (map Ledger.PAID_OVERRIDE_AMOUNT
                (filter (fun a => Qltb (Ledger.PAID_OVERRIDE_AMOUNT a) 0) mine)).
Proof.
  apply (amounts_of_policy (fun _ => "2024-03-01"%string)
                           [ Ledger.mk_commission 1 19783 1200;
                             Ledger.mk_commission 1 19814 300;
                             Ledger.mk_commission 1 19814 (-600) ]
                           [ Ledger.mk_policy 1 "X"%string ]).
  - repeat constructor. intros [].
  - left. reflexivity.
Defined.

(** ** The classified frame *)


